(** * Pandora, confidence module: the estimator registry and the indicator
      accumulator of [pandora/confidence/confidence.py].

    The development is a shallow embedding.  Python objects that are shared
    and mutated (numpy arrays, xarray datasets) live in an explicit object
    store and are named by references; the code of
    [AbstractConfidence.allocate_confidence_map] is written in a small
    state-and-exception monad over that store, one bind per source line. *)

From Stdlib Require Import ZArith.
From Stdlib Require Import Floats.SpecFloat.
From stdpp Require Import gmap strings list fin_maps pretty.

Open Scope nat_scope.

(** ** Python exceptions

    [KeyError], [ValueError], [IndexError] and [SystemExit] are those the
    code and its libraries raise.  [ConfigurationError] is the typed error
    of the specification; no line of the module raises it. *)

Inductive exn :=
| KeyError (key : string)
| ValueError
| IndexError
| SystemExit (code : Z)
| ConfigurationError (message : string).

(** ** Labels

    Coordinate values (the names of the indicators, the row and column
    indices) are immutable in xarray and are held by value. *)

Inductive label := LStr (s : string) | LInt (z : Z).

#[global] Instance label_eq_dec : EqDecision label.
Proof. solve_decision. Defined.

(** ** numpy: dtypes, scalars and n-dimensional arrays *)

Module np.

Inductive dtype := float32 | float64.

#[global] Instance dtype_eq_dec : EqDecision dtype.
Proof. solve_decision. Defined.

(** [np.nan] *)
Definition nan : spec_float := S754_nan.

Definition is_nan (x : spec_float) : bool :=
  match x with S754_nan => true | _ => false end.

(** Conversion of a scalar to binary32 (24 bits of mantissa, infinities at
    exponent 128), round to nearest even. *)
Definition to_float32 (x : spec_float) : spec_float :=
  match x with
  | S754_finite s m e => binary_round 24 128 s m e
  | _ => x
  end.

(** The cast numpy applies when a value of dtype [src] is stored into an
    array of dtype [dst]: a plain copy between equal dtypes. *)
Definition cast (src dst : dtype) (x : spec_float) : spec_float :=
  match src, dst with
  | float64, float32 => to_float32 x
  | _, _ => x
  end.

(** A C-contiguous array: dtype, shape and the flat buffer in row-major
    order. *)
Record ndarray := NdArray {
  nd_dtype : dtype;
  shape : list nat;
  data : list spec_float
}.

#[global] Instance spec_float_inhabited : Inhabited spec_float :=
  populate (S754_zero false).
#[global] Instance ndarray_inhabited : Inhabited ndarray :=
  populate (NdArray float32 [] []).

Definition ndim (a : ndarray) : nat := length (shape a).

Definition size_of (sh : list nat) : nat := foldr Nat.mul 1 sh.

(** Flat offset of [(r, c, k)] in an array whose two trailing extents are
    [C] and [K], and its inverse. *)
Definition ravel3 (C K r c k : nat) : nat := (r * C + c) * K + k.

Definition unravel3 (C K i : nat) : nat * nat * nat :=
  (i / (C * K), (i / K) mod C, i mod K).

(** The buffer of an [(R, C, K)] array given elementwise. *)
Definition tabulate3 (R C K : nat) (f : nat → nat → nat → spec_float)
  : list spec_float :=
  (λ i, let '(r, c, k) := unravel3 C K i in f r c k) <$> seq 0 (R * C * K).

(** [a[r, c, k]] for a 3-D array and [a[r, c]] for a 2-D one. *)
Definition get3 (a : ndarray) (r c k : nat) : spec_float :=
  match shape a with
  | [_; C; K] => data a !!! ravel3 C K r c k
  | _ => inhabitant
  end.

Definition get2 (a : ndarray) (r c : nat) : spec_float :=
  match shape a with
  | [_; C] => data a !!! (r * C + c)
  | _ => inhabitant
  end.

(** [np.full(shape, fill_value, dtype=dt)] as a value. *)
Definition full (sh : list nat) (fill : spec_float) (dt : dtype) : ndarray :=
  NdArray dt sh (replicate (size_of sh) (cast float64 dt fill)).

(** [a[:, :, np.newaxis]]: a unit axis inserted in third position.  The
    buffer is left as it is; fewer than two axes is an [IndexError]. *)
Definition newaxis2 (a : ndarray) : exn + ndarray :=
  match shape a with
  | r :: c :: rest => inr (NdArray (nd_dtype a) (r :: c :: 1 :: rest) (data a))
  | _ => inl IndexError
  end.

(** [a.astype(dt)]: a converted copy. *)
Definition astype (a : ndarray) (dt : dtype) : ndarray :=
  NdArray dt (shape a) (cast (nd_dtype a) dt <$> data a).

(** Broadcasting a value of shape [sh] against a 2-D target [(R, C)]:
    leading unit axes in excess are stripped, missing leading axes count as
    unit axes, and each remaining extent is the target's or 1.  The result
    is the pair of source extents, or [None] when the shapes do not
    broadcast. *)
Fixpoint strip_ones (sh : list nat) : list nat :=
  match sh with
  | 1 :: (_ :: _ :: _) as rest => strip_ones rest
  | _ => sh
  end.

Definition broadcast2 (sh : list nat) (R C : nat) : option (nat * nat) :=
  let ok (n N : nat) := bool_decide (n = N ∨ n = 1) in
  match strip_ones sh with
  | [] => Some (1, 1)
  | [c] => if ok c C then Some (1, c) else None
  | [r; c] => if ok r R && ok c C then Some (r, c) else None
  | _ => None
  end.

(** The element a broadcast source of extents [(r', c')] contributes at
    target position [(r, c)]. *)
Definition bget (a : ndarray) (rc' : nat * nat) (r c : nat) : spec_float :=
  let '(r', c') := rc' in
  data a !!! ((if r' =? 1 then 0 else r) * c' + (if c' =? 1 then 0 else c)).

(** [dst[:, :, :-1] = src] on a 3-D [dst].  The source hands over exactly
    the extents of the slice, which is the case modelled; any other shape
    is reported as the shape error. *)
Definition assign_init (dst src : ndarray) : exn + ndarray :=
  match shape dst with
  | [R; C; K1] =>
      if bool_decide (shape src = [R; C; K1 - 1]) then
        inr (NdArray (nd_dtype dst) (shape dst)
               (tabulate3 R C K1 (λ r c k,
                  if k <? K1 - 1
                  then cast (nd_dtype src) (nd_dtype dst) (get3 src r c k)
                  else get3 dst r c k)))
      else inl ValueError
  | _ => inl IndexError
  end.

(** [dst[:, :, -1] = src] on a 3-D [dst], with broadcasting of [src]. *)
Definition assign_last (dst src : ndarray) : exn + ndarray :=
  match shape dst with
  | [R; C; K1] =>
      if K1 =? 0 then inl IndexError else
      match broadcast2 (shape src) R C with
      | Some rc' =>
          inr (NdArray (nd_dtype dst) (shape dst)
                 (tabulate3 R C K1 (λ r c k,
                    if k =? K1 - 1
                    then cast (nd_dtype src) (nd_dtype dst) (bget src rc' r c)
                    else get3 dst r c k)))
      | None => inl ValueError
      end
  | _ => inl IndexError
  end.

(** [np.arange(n)] as labels, and [str(x)] of a label. *)
Definition arange (n : nat) : list label := (λ i, LInt (Z.of_nat i)) <$> seq 0 n.

Definition str (x : label) : string :=
  match x with LStr s => s | LInt z => pretty z end.

(** [np.append(arr, value)] of a string to a 1-D array of labels: the
    result is an array of strings. *)
Definition append (arr : list label) (value : string) : list label :=
  (LStr ∘ str <$> arr) ++ [LStr value].

(** Row-major offset of a multi-index in an array of shape [sh], and the
    multi-index of an offset. *)
Fixpoint ravel (sh idx : list nat) : nat :=
  match sh, idx with
  | _ :: sh', i :: idx' => i * size_of sh' + ravel sh' idx'
  | _, _ => 0
  end.

Fixpoint unravel (sh : list nat) (i : nat) : list nat :=
  match sh with
  | [] => []
  | _ :: sh' => i / size_of sh' :: unravel sh' (i mod size_of sh')
  end.

(** An indexer along one axis: nothing to do, or, for each position of the
    result, the position of the source it takes, if any. *)
Definition indexer : Type := option (list (option nat)).

Definition new_extent (n : nat) (ix : indexer) : nat :=
  match ix with Some positions => length positions | None => n end.

Definition source_position (j : nat) (ix : indexer) : option nat :=
  match ix with Some positions => mjoin (positions !! j) | None => Some j end.

(** [a[key]] with a mask: a new array, [a] reindexed along its axes, the
    positions that take nothing from [a] holding NaN. *)
Definition getitem_with_mask (a : ndarray) (key : list indexer) : ndarray :=
  let sh := zip_with new_extent (shape a) key in
  NdArray (nd_dtype a) sh
    ((λ i, match mapM id (zip_with source_position (unravel sh i) key) with
           | Some idx => data a !!! ravel (shape a) idx
           | None => nan
           end) <$> seq 0 (size_of sh)).

End np.

(** ** The object store *)

Abbreviation loc := nat.

(** A variable of a dataset: a data variable names its dimensions and refers
    to its array in the store; a coordinate lies along one dimension and
    holds its labels. *)
Inductive variable :=
| DataVar (dims : list string) (values : loc)
| Coordinate (dim : string) (labels : list label).

#[global] Instance variable_eq_dec : EqDecision variable.
Proof. solve_decision. Defined.

(** [xarray.Dataset]: named variables. *)
Abbreviation Dataset := (gmap string variable).

(** [xarray.DataArray]: one variable and the coordinates that go with it. *)
Record data_array := mkDataArray {
  da_var : variable;
  da_coords : gmap string variable
}.

Record heap := Heap {
  arrays : list np.ndarray;
  datasets : list Dataset
}.

(** ** Computations over the store that may raise *)

Definition M (A : Type) : Type := heap → (exn + A) * heap.

#[global] Instance M_ret : MRet M := λ A x h, (inr x, h).

#[global] Instance M_bind : MBind M := λ A B f m h,
  match m h with
  | (inr x, h') => f x h'
  | (inl e, h') => (inl e, h')
  end.

Definition raise {A} (e : exn) : M A := λ h, (inl e, h).

Definition lift {A} (r : exn + A) : M A := λ h, (r, h).

Definition get_heap : M heap := λ h, (inr h, h).

Definition alloc_array (a : np.ndarray) : M loc := λ h,
  (inr (length (arrays h)), Heap (arrays h ++ [a]) (datasets h)).

Definition read_array (l : loc) : M np.ndarray := λ h, (inr (arrays h !!! l), h).

Definition write_array (l : loc) (a : np.ndarray) : M unit := λ h,
  (inr (), Heap (<[l := a]> (arrays h)) (datasets h)).

Definition alloc_dataset (ds : Dataset) : M loc := λ h,
  (inr (length (datasets h)), Heap (arrays h) (datasets h ++ [ds])).

Definition read_dataset (l : loc) : M Dataset := λ h, (inr (datasets h !!! l), h).

Definition write_dataset (l : loc) (ds : Dataset) : M unit := λ h,
  (inr (), Heap (arrays h) (<[l := ds]> (datasets h))).

(** Statements of numpy on arrays of the store. *)

(** [np.full(shape, fill, dtype=dt)] *)
Definition np_full (sh : list nat) (fill : spec_float) (dt : np.dtype) : M loc :=
  alloc_array (np.full sh fill dt).

(** [dst[:, :, :-1] = src] *)
Definition setitem_init (dst : loc) (src : np.ndarray) : M unit :=
  a ← read_array dst;
  a' ← lift (np.assign_init a src);
  write_array dst a'.

(** [dst[:, :, -1] = src] *)
Definition setitem_last (dst : loc) (src : np.ndarray) : M unit :=
  a ← read_array dst;
  a' ← lift (np.assign_last a src);
  write_array dst a'.

(** [a, b, c = t] *)
Definition unpack3 (t : list nat) : M (nat * nat * nat) :=
  match t with
  | [a; b; c] => mret (a, b, c)
  | _ => raise ValueError
  end.

(** ** xarray: datasets of the store *)

Module xr.

Definition dims_of (v : variable) : list string :=
  match v with
  | DataVar dims _ => dims
  | Coordinate d _ => [d]
  end.

Definition shape_of (h : heap) (v : variable) : list nat :=
  match v with
  | DataVar _ l => np.shape (arrays h !!! l)
  | Coordinate _ labels => [length labels]
  end.

(** The extents a variable gives to its dimensions. *)
Definition sizes_of (h : heap) (v : variable) : list (string * nat) :=
  zip (dims_of v) (shape_of h v).

Definition is_coord (v : variable) : Prop :=
  match v with Coordinate _ _ => True | DataVar _ _ => False end.

#[global] Instance is_coord_dec v : Decision (is_coord v).
Proof. destruct v; simpl; apply _. Defined.

(** [key in ds.data_vars] *)
Definition in_data_vars (key : string) (ds : Dataset) : bool :=
  match ds !! key with
  | Some (DataVar _ _) => true
  | _ => false
  end.

(** [d in ds.dims] *)
Definition has_dim (ds : Dataset) (d : string) : Prop :=
  map_Exists (λ _ v, d ∈ dims_of v) ds.

(** [ds.sizes.get(d)]: the extent of dimension [d], when some variable
    has it. *)
Definition dim_size (h : heap) (ds : Dataset) (d : string) : option nat :=
  head (omap (λ kv : string * variable,
                snd <$> head (filter (λ p, p.1 = d) (sizes_of h kv.2)))
             (map_to_list ds)).

(** The extents [sizes] agree with every extent the variables of [ds]
    give to the same dimensions; xarray raises [ValueError] (conflicting
    sizes for a dimension) when they do not. *)
Definition fits (h : heap) (ds : Dataset) (sizes : list (string * nat)) : Prop :=
  map_Forall (λ _ v,
    Forall (λ q, Forall (λ p : string * nat, p.1 = q.1 → p.2 = q.2) sizes)
           (sizes_of h v)) ds.

#[global] Instance fits_dec h ds sizes : Decision (fits h ds sizes).
Proof. unfold fits. apply _. Defined.

(** [xr.DataArray(data=data, dims=dims)] *)
Definition DataArray (values : loc) (dims : list string) : M data_array :=
  a ← read_array values;
  if bool_decide (length dims = np.ndim a)
  then mret (mkDataArray (DataVar dims values) ∅)
  else raise ValueError.

(** [ds[key]]: the variable with the coordinates along its dimensions; a
    dimension without coordinate reads as its default integer index. *)
Definition getitem (ds : loc) (key : string) : M data_array :=
  vars ← read_dataset ds;
  match vars !! key with
  | Some v =>
      mret (mkDataArray v
              (filter (λ kv, is_coord kv.2 ∧ dims_of kv.2 ⊆ dims_of v ∧ kv.1 ≠ key)
                      vars))
  | None =>
      h ← get_heap;
      match dim_size h vars key with
      | Some n => mret (mkDataArray (Coordinate key (np.arange n)) ∅)
      | None => raise (KeyError key)
      end
  end.

(** [ds.coords[key]] *)
Definition coords_getitem (ds : loc) (key : string) : M data_array :=
  vars ← read_dataset ds;
  if in_data_vars key vars then raise (KeyError key) else getitem ds key.

(** [da.shape] *)
Definition shape (da : data_array) : M (list nat) :=
  h ← get_heap; mret (shape_of h (da_var da)).

(** [da.data] of a data variable: its array in the store.  Arrays of
    labels hold no floats. *)
Definition data (da : data_array) : M np.ndarray :=
  match da_var da with
  | DataVar _ l => read_array l
  | Coordinate _ _ => raise ValueError
  end.

(** [np.copy(da)] of a coordinate: its labels.  ([ds.coords[key]] never
    hands over a data variable.) *)
Definition labels_of (da : data_array) : M (list label) :=
  match da_var da with
  | Coordinate _ labels => mret labels
  | DataVar _ _ => raise ValueError
  end.

(** [ds.drop_dims(d)]: a new dataset without the variables that have
    dimension [d]; [ValueError] when [d] is no dimension of [ds]. *)
Definition drop_dims (ds : loc) (d : string) : M loc :=
  vars ← read_dataset ds;
  if bool_decide (has_dim vars d)
  then alloc_dataset (filter (λ kv, d ∉ dims_of kv.2) vars)
  else raise ValueError.

(** [ds.assign_coords(key=labels)]: a new dataset in which [key] is the
    coordinate of dimension [key]. *)
Definition assign_coords (ds : loc) (key : string) (labels : list label) : M loc :=
  vars ← read_dataset ds;
  h ← get_heap;
  if bool_decide (fits h (delete key vars) [(key, length labels)])
  then alloc_dataset (<[key := Coordinate key labels]> vars)
  else raise ValueError.

(** The index of dimension [d] in a dataset: the labels of the coordinate
    of that name. *)
Definition index_of (ds : Dataset) (d : string) : option (list label) :=
  match ds !! d with
  | Some (Coordinate d' labels) => if decide (d' = d) then Some labels else None
  | _ => None
  end.

(** [index.get_loc(x)]: the position of a label. *)
Fixpoint get_loc (index : list label) (x : label) : option nat :=
  match index with
  | [] => None
  | y :: rest => if decide (y = x) then Some 0 else S <$> get_loc rest x
  end.

(** Alignment along dimension [d] of a value that comes with the
    coordinates [source] on the indexes of the dataset [target]: when both
    have an index and the two differ, the value is reindexed on the labels
    of [target]; [ValueError] when its own index has duplicate labels. *)
Definition reindexer (target source : Dataset) (d : string) : exn + np.indexer :=
  match index_of target d, index_of source d with
  | Some new, Some old =>
      if decide (new = old) then inr None
      else if decide (NoDup old) then inr (Some (get_loc old <$> new))
      else inl ValueError
  | _, _ => inr None
  end.

Fixpoint reindexers (target source : Dataset) (dims : list string)
  : exn + list np.indexer :=
  match dims with
  | [] => inr []
  | d :: rest =>
      match reindexer target source d with
      | inl e => inl e
      | inr ix =>
          match reindexers target source rest with
          | inl e => inl e
          | inr key => inr (ix :: key)
          end
      end
  end.

(** The extents of a variable once reindexed. *)
Definition aligned_sizes (h : heap) (v : variable) (key : list np.indexer)
  : list (string * nat) :=
  zip (dims_of v) (zip_with np.new_extent (shape_of h v) key).

(** The variable reindexed: itself when there is nothing to do, a new array
    otherwise. *)
Definition reindex (v : variable) (key : list np.indexer) : M variable :=
  match v with
  | DataVar dims l =>
      if bool_decide (Forall (λ ix, ix = None) key) then mret v
      else
        a ← read_array l;
        l' ← alloc_array (np.getitem_with_mask a key);
        mret (DataVar dims l')
  | Coordinate _ _ => mret v
  end.

(** [ds[key] = da]: [da] is aligned on the indexes of [ds], by labels; the
    dataset object is then updated in place, once the new variable is known
    to fit; the coordinates of [da] that [ds] lacks come with it, and those
    [ds] has are kept. *)
Definition setitem (ds : loc) (key : string) (da : data_array) : M unit :=
  vars ← read_dataset ds;
  h ← get_heap;
  ixs ← lift (reindexers vars (da_coords da) (dims_of (da_var da)));
  let merged := vars ∪ da_coords da in
  if bool_decide (fits h (delete key merged) (aligned_sizes h (da_var da) ixs))
  then
    v ← reindex (da_var da) ixs;
    write_dataset ds (<[key := v]> merged)
  else raise ValueError.

End xr.

(** ** The class [AbstractConfidence] *)

Module AbstractConfidence.

(** *** The registry and the factory *)

(** Classes: the abstract class itself, or a plugin class known by its
    name. *)
Inductive class := AbstractConfidence | Plugin (name : string).

#[global] Instance class_eq_dec : EqDecision class.
Proof. solve_decision. Defined.

Inductive instance := Instance (cls : class).

(** Values a configuration can hold. *)
Inductive pyval := PyStr (s : string) | PyInt (z : Z) | PyBool (b : bool) | PyNone.

(** The class attribute [confidence_methods_avail], shared by the class
    and its subclasses, and the records handed to [logging]. *)
Record world := World {
  confidence_methods_avail : gmap string class;
  log : list string
}.

Definition F (A : Type) : Type := world → (exn + A) * world.

(** ['No confidence method named % supported' % method]: the conversion
    is [% s], the flag being the blank, and leaves [upported] behind. *)
Definition error_message (method : string) : string :=
  "No confidence method named " +:+ method +:+ "upported".

(** [AbstractConfidence.__new__(cls, **cfg)]; [None] is Python's [None]. *)
Definition __new__ (cls : class) (cfg : gmap string pyval) : F (option instance) :=
  λ w,
  match cls with
  | AbstractConfidence =>
      match cfg !! "confidence_method" with
      | None => (inl (KeyError "confidence_method"), w)
      | Some (PyStr method) =>
          match confidence_methods_avail w !! method with
          | Some subclass => (inr (Some (Instance subclass)), w)
          | None =>
              (inl (SystemExit 1),
               World (confidence_methods_avail w) (log w ++ [error_message method]))
          end
      | Some _ => (inr None, w)
      end
  | Plugin _ => (inr (Some (Instance cls)), w)
  end.

(** [AbstractConfidence.register_subclass(short_name)(subclass)] *)
Definition register_subclass (short_name : string) (subclass : class) : F class :=
  λ w,
  (inr subclass,
   World (<[short_name := subclass]> (confidence_methods_avail w)) (log w)).

(** *** The indicator accumulator *)

(** Lines 128 to 149: the cost volume. *)
Definition update_cost_volume (name_confidence_measure : string)
    (confidence_map : np.ndarray) (cv : loc) : M loc :=
  cv_vars ← read_dataset cv;
  if xr.in_data_vars "confidence_measure" cv_vars then
    sh ← xr.getitem cv "confidence_measure" ≫= xr.shape;
    '(nb_row, nb_col, nb_indicator) ← unpack3 sh;
    conf_measure ← np_full [nb_row; nb_col; nb_indicator + 1] np.nan np.float32;
    old ← xr.getitem cv "confidence_measure" ≫= xr.data;
    setitem_init conf_measure old;;
    setitem_last conf_measure confidence_map;;
    indicator ← xr.coords_getitem cv "indicator" ≫= xr.labels_of;
    let indicator := np.append indicator name_confidence_measure in
    cv ← xr.drop_dims cv "indicator";
    cv ← xr.assign_coords cv "indicator" indicator;
    da ← xr.DataArray conf_measure ["row"; "col"; "indicator"];
    xr.setitem cv "confidence_measure" da;;
    mret cv
  else
    cv ← xr.assign_coords cv "indicator" [LStr name_confidence_measure];
    expanded ← lift (np.newaxis2 confidence_map);
    values ← alloc_array (np.astype expanded np.float32);
    da ← xr.DataArray values ["row"; "col"; "indicator"];
    xr.setitem cv "confidence_measure" da;;
    mret cv.

(** Lines 151 to 170: the disparity map, [None] when there is none; [cv]
    is the cost volume as the lines above left it. *)
Definition update_disparity_map (name_confidence_measure : string)
    (confidence_map : np.ndarray) (disp : option loc) (cv : loc) : M (option loc) :=
  match disp with
  | Some disp =>
      disp_vars ← read_dataset disp;
      if xr.in_data_vars "confidence_measure" disp_vars then
        sh ← xr.getitem disp "confidence_measure" ≫= xr.shape;
        '(nb_row, nb_col, nb_indicator) ← unpack3 sh;
        conf_measure ← np_full [nb_row; nb_col; nb_indicator + 1] np.nan np.float32;
        old ← xr.getitem disp "confidence_measure" ≫= xr.data;
        setitem_init conf_measure old;;
        setitem_last conf_measure confidence_map;;
        indicator ← xr.coords_getitem disp "indicator" ≫= xr.labels_of;
        let indicator := np.append indicator name_confidence_measure in
        disp ← xr.drop_dims disp "indicator";
        disp ← xr.assign_coords disp "indicator" indicator;
        da ← xr.DataArray conf_measure ["row"; "col"; "indicator"];
        xr.setitem disp "confidence_measure" da;;
        mret (Some disp)
      else
        da ← xr.getitem cv "confidence_measure";
        xr.setitem disp "confidence_measure" da;;
        mret (Some disp)
  | None => mret None
  end.

(** [AbstractConfidence.allocate_confidence_map(name_confidence_measure,
    confidence_map, disp, cv)]; the pair returned is [(disp, cv)]. *)
Definition allocate_confidence_map (name_confidence_measure : string)
    (confidence_map : np.ndarray) (disp : option loc) (cv : loc)
  : M (option loc * loc) :=
  cv ← update_cost_volume name_confidence_measure confidence_map cv;
  disp ← update_disparity_map name_confidence_measure confidence_map disp cv;
  mret (disp, cv).

End AbstractConfidence.


Import AbstractConfidence.

(** ** Reading the store *)

(** Everything [h] holds is still in [h'], unchanged. *)
Definition extends (h h' : heap) : Prop :=
  (∀ l a, arrays h !! l = Some a → arrays h' !! l = Some a) ∧
  (∀ l ds, datasets h !! l = Some ds → datasets h' !! l = Some ds).

(** The data variables of [ds] refer to arrays of the store. *)
Definition live (h : heap) (ds : Dataset) : Prop :=
  ∀ key dims l, ds !! key = Some (DataVar dims l) → is_Some (arrays h !! l).

(** A dimension has one extent throughout a dataset. *)
Definition consistent (h : heap) (ds : Dataset) : Prop :=
  ∀ k1 v1 k2 v2 d n1 n2,
    ds !! k1 = Some v1 → ds !! k2 = Some v2 →
    (d, n1) ∈ xr.sizes_of h v1 → (d, n2) ∈ xr.sizes_of h v2 → n1 = n2.

Definition wf_dataset (h : heap) (ds : Dataset) : Prop :=
  live h ds ∧ consistent h ds.

(** Dataset [ds] has the data variable [confidence_measure] over [dims],
    held by the array [a] at reference [l]. *)
Definition layer_of (h : heap) (ds : loc) (dims : list string) (l : loc)
    (a : np.ndarray) : Prop :=
  ∃ vars, datasets h !! ds = Some vars ∧
          vars !! "confidence_measure" = Some (DataVar dims l) ∧
          arrays h !! l = Some a.

(** The labels of coordinate [indicator] of dataset [ds]. *)
Definition indicator_labels (h : heap) (ds : loc) (labels : list label) : Prop :=
  ∃ vars, datasets h !! ds = Some vars ∧
          vars !! "indicator" = Some (Coordinate "indicator" labels).

(** The confidence layer of [ds]: an array over (row, col, indicator) and
    the labels of its slices. *)
Definition confidence_layer (h : heap) (ds : loc) (l : loc) (a : np.ndarray)
    (labels : list label) : Prop :=
  layer_of h ds ["row"; "col"; "indicator"] l a ∧ indicator_labels h ds labels.

(** Dataset [ds] carries indicator [name] with map [m]: the last label of
    its confidence layer is [name] and the last slice holds [m], broadcast
    to the extents of the layer and stored as 32-bit floats. *)
Definition carries (h : heap) (ds : loc) (name : string) (m : np.ndarray) : Prop :=
  ∃ l a labels R C K rc',
    confidence_layer h ds l a (labels ++ [LStr name]) ∧
    np.shape a = [R; C; K + 1] ∧ np.nd_dtype a = np.float32 ∧
    np.broadcast2 (np.shape m) R C = Some rc' ∧
    ∀ r c, r < R → c < C →
      np.get3 a r c K = np.cast (np.nd_dtype m) np.float32 (np.bget m rc' r c).

(** [SystemExit] ends the process; the other exceptions are errors a caller
    can handle. *)
Definition terminates_process (e : exn) : Prop :=
  match e with SystemExit _ => True | _ => False end.

(** ** The assignment of a value that needs no reindexing

    What [ds[key] = da] comes to when no dimension of [da] has to be
    reindexed: the variable is stored as it is, once it is known to fit. *)
Definition setitem_aligned (ds : loc) (key : string) (da : data_array) : M unit :=
  vars ← read_dataset ds;
  h ← get_heap;
  let merged := vars ∪ da_coords da in
  if bool_decide (xr.fits h (delete key merged) (xr.sizes_of h (da_var da)))
  then write_dataset ds (<[key := da_var da]> merged)
  else raise ValueError.


(** ** A weakest-precondition reading of computations *)

Definition wp {A} (m : M A) (h : heap) (Q : exn + A → heap → Prop) : Prop :=
  Q (m h).1 (m h).2.

(** ** The store after each branch, in closed form *)

(** The labels line 138 reads from a dataset: those of its [indicator]
    variable, or the default index of dimension [indicator]. *)
Definition old_labels (vars : Dataset) (labels : list label) : Prop :=
  (∃ d, vars !! "indicator" = Some (Coordinate d labels)) ∨
  (vars !! "indicator" = None ∧ ∃ n, labels = np.arange n).

(** What [drop_dims('indicator')] keeps. *)
Definition without_indicator (vars : Dataset) : Dataset :=
  filter (λ kv, "indicator" ∉ xr.dims_of kv.2) vars.

(** Lines 129 to 144 (and 153 to 168) on a dataset [vars] whose layer is held
    at [l]: one array and two datasets are added to the store, the second
    dataset being the one returned. *)
Definition grow_post (h : heap) (vars : Dataset) (l : loc) (name : string)
    (m : np.ndarray) (x' : loc) (h' : heap) : Prop :=
  ∃ R C K rc' labels a' final,
    np.shape (arrays h !!! l) = [R; C; K] ∧ l < length (arrays h) ∧
    np.broadcast2 (np.shape m) R C = Some rc' ∧
    old_labels vars labels ∧
    x' = S (length (datasets h)) ∧
    arrays h' = arrays h ++ [a'] ∧
    final =
      <["confidence_measure" := DataVar ["row"; "col"; "indicator"] (length (arrays h))]>
        (<["indicator" := Coordinate "indicator" (np.append labels name)]>
           (without_indicator vars)) ∧
    datasets h' = datasets h ++ [without_indicator vars; final] ∧
    xr.fits h' (delete "confidence_measure" final)
            [("row", R); ("col", C); ("indicator", K + 1)] ∧
    np.shape a' = [R; C; K + 1] ∧ np.nd_dtype a' = np.float32 ∧
    ∀ r c k, r < R → c < C → k < K + 1 →
      np.get3 a' r c k =
        if k <? K
        then np.cast (np.nd_dtype (arrays h !!! l)) np.float32
                     (np.get3 (arrays h !!! l) r c k)
        else np.cast (np.nd_dtype m) np.float32 (np.bget m rc' r c).

(** Lines 147 to 149 on a dataset [vars]: one array and one dataset are
    added to the store. *)
Definition alloc_post (h : heap) (vars : Dataset) (name : string)
    (m : np.ndarray) (x' : loc) (h' : heap) : Prop :=
  ∃ R C final,
    np.shape m = [R; C] ∧
    x' = length (datasets h) ∧
    arrays h' = arrays h ++
      [np.astype (np.NdArray (np.nd_dtype m) [R; C; 1] (np.data m)) np.float32] ∧
    final =
      <["confidence_measure" := DataVar ["row"; "col"; "indicator"] (length (arrays h))]>
        (<["indicator" := Coordinate "indicator" [LStr name]]> vars) ∧
    datasets h' = datasets h ++ [final] ∧
    xr.fits h' (delete "confidence_measure" final)
            [("row", R); ("col", C); ("indicator", 1)].

(** The coordinates [ds['confidence_measure']] takes along from [vars]. *)
Definition layer_coords (vars : Dataset) (v : variable) : Dataset :=
  filter (λ kv, xr.is_coord kv.2 ∧ xr.dims_of kv.2 ⊆ xr.dims_of v ∧
                kv.1 ≠ "confidence_measure") vars.

(** The outcome of a computation with its value mapped. *)
Definition map_result {A B} (f : A → B) (p : (exn + A) * heap) : (exn + B) * heap :=
  (match p.1 with inr x => inr (f x) | inl e => inl e end, p.2).

(** A data variable whose array is in the store; coordinates hold their
    labels themselves. *)
Definition live_var (h : heap) (v : variable) : Prop :=
  match v with
  | DataVar _ l => is_Some (arrays h !! l)
  | Coordinate _ _ => True
  end.

#[global] Instance live_var_dec h v : Decision (live_var h v).
Proof. destruct v; simpl; apply _. Defined.

(** ** The worked example of the specification

    A 2 x 2 cost volume over three disparities and its disparity map, the
    maps [[0.1, 0.2], [0.3, 0.4]] and [[0.5, 0.6], [0.7, 0.8]] as 32-bit
    floats, and the stores the successive merges go through. *)

Definition f32 (m : positive) (e : Z) : spec_float := S754_finite false m e.

Definition ambiguity_map : np.ndarray :=
  np.NdArray np.float32 [2; 2]
    [f32 13421773 (-27); f32 13421773 (-26); f32 10066330 (-25); f32 13421773 (-25)].

Definition risk_map : np.ndarray :=
  np.NdArray np.float32 [2; 2]
    [f32 8388608 (-24); f32 10066330 (-24); f32 11744051 (-24); f32 13421773 (-24)].

Definition cost_volume_ds : Dataset :=
  {[ "cost_volume" := DataVar ["row"; "col"; "disp"] 0;
     "row" := Coordinate "row" [LInt 0; LInt 1];
     "col" := Coordinate "col" [LInt 0; LInt 1];
     "disp" := Coordinate "disp" [LInt (-1); LInt 0; LInt 1] ]}.

Definition disparity_ds : Dataset :=
  {[ "disparity_map" := DataVar ["row"; "col"] 1;
     "row" := Coordinate "row" [LInt 0; LInt 1];
     "col" := Coordinate "col" [LInt 0; LInt 1] ]}.

(** The cost volume is object 0 and the disparity map object 1. *)
Definition store0 : heap :=
  Heap [np.full [2; 2; 3] (S754_zero false) np.float32;
        np.full [2; 2] (S754_zero false) np.float32]
       [cost_volume_ds; disparity_ds].

(** After ["ambiguity"] has been merged into both: the cost volume returned
    is object 2, the disparity map is still object 1. *)
Definition store1 : heap :=
  Eval vm_compute in
    (allocate_confidence_map "ambiguity" ambiguity_map (Some 1) 0 store0).2.

(** The first layer, as the first merge built it. *)
Definition ambiguity_layer : np.ndarray :=
  np.NdArray np.float32 [2; 2; 1]
    [f32 13421773 (-27); f32 13421773 (-26); f32 10066330 (-25); f32 13421773 (-25)].

(** A cost volume whose only indicator holds a NaN, and a 1 x 1 map. *)
Definition nan_store : heap :=
  Heap [np.NdArray np.float32 [1; 1; 1] [np.nan]]
       [{[ "confidence_measure" := DataVar ["row"; "col"; "indicator"] 0;
           "indicator" := Coordinate "indicator" [LStr "ambiguity"] ]}].

Definition half_map : np.ndarray :=
  np.NdArray np.float32 [1; 1] [f32 8388608 (-24)].

(** Stores and maps for the edges of the accumulator: a row of two values,
    a cost volume whose [confidence_measure] is two-dimensional, and the
    cost volume of the worked example with a disparity map of three rows
    that has no coordinates. *)
Definition row_map : np.ndarray :=
  np.NdArray np.float32 [2] [f32 8388608 (-24); f32 12582912 (-24)].

Definition flat_store : heap :=
  Heap [np.full [2; 2] (S754_zero false) np.float32]
       [{[ "confidence_measure" := DataVar ["row"; "col"] 0 ]}].

Definition tall_store : heap :=
  Heap [np.full [2; 2; 3] (S754_zero false) np.float32;
        np.full [3; 2] (S754_zero false) np.float32]
       [cost_volume_ds; {[ "disparity_map" := DataVar ["row"; "col"] 1 ]}].




(** The store of the worked example with a disparity map of three rows,
    labelled 0, 1 and 2. *)
Definition padded_store : heap :=
  Heap [np.full [2; 2; 3] (S754_zero false) np.float32;
        np.full [3; 2] (S754_zero false) np.float32]
       [cost_volume_ds;
        {[ "disparity_map" := DataVar ["row"; "col"] 1;
           "row" := Coordinate "row" [LInt 0; LInt 1; LInt 2];
           "col" := Coordinate "col" [LInt 0; LInt 1] ]}].

(** * Facts *)

(** ** numpy *)

Section numpy_facts.

Lemma unravel3_ravel3 C K r c k :
  c < C → k < K → np.unravel3 C K (np.ravel3 C K r c k) = (r, c, k).
Proof.
  intros Hc Hk. unfold np.unravel3, np.ravel3.
  assert (HK : ((r * C + c) * K + k) / K = r * C + c).
  { symmetry. apply (Nat.div_unique _ _ _ k); lia. }
  assert (HCK : ((r * C + c) * K + k) / (C * K) = r).
  { symmetry. apply (Nat.div_unique _ _ _ (c * K + k)); nia. }
  assert (Hm : ((r * C + c) * K + k) mod K = k).
  { symmetry. apply (Nat.mod_unique _ _ (r * C + c)); lia. }
  assert (Hc' : (r * C + c) mod C = c).
  { symmetry. apply (Nat.mod_unique _ _ r); lia. }
  by rewrite HK, HCK, Hm, Hc'.
Qed.

Lemma ravel3_lt R C K r c k :
  r < R → c < C → k < K → np.ravel3 C K r c k < R * C * K.
Proof.
  intros Hr Hc Hk. unfold np.ravel3.
  assert (r * C + c + 1 ≤ R * C) by nia.
  assert ((r * C + c + 1) * K ≤ R * C * K) by (apply Nat.mul_le_mono_r; lia).
  lia.
Qed.

Lemma tabulate3_length R C K f : length (np.tabulate3 R C K f) = R * C * K.
Proof. unfold np.tabulate3. by rewrite length_fmap, length_seq. Qed.

Lemma tabulate3_lookup R C K f r c k :
  r < R → c < C → k < K →
  np.tabulate3 R C K f !!! np.ravel3 C K r c k = f r c k.
Proof.
  intros Hr Hc Hk. apply list_lookup_total_correct.
  unfold np.tabulate3. rewrite list_lookup_fmap.
  rewrite lookup_seq_lt by by apply ravel3_lt.
  cbn [fmap option_fmap option_map Nat.add]. by rewrite unravel3_ravel3.
Qed.

Lemma get3_tabulate3 dt R C K f r c k :
  r < R → c < C → k < K →
  np.get3 (np.NdArray dt [R; C; K] (np.tabulate3 R C K f)) r c k = f r c k.
Proof. intros. unfold np.get3. simpl. by apply tabulate3_lookup. Qed.

Lemma full_shape sh x dt : np.shape (np.full sh x dt) = sh.
Proof. done. Qed.

Lemma cast_same dt x : np.cast dt dt x = x.
Proof. by destruct dt. Qed.

Lemma cast_inhabitant s d : np.cast s d inhabitant = inhabitant.
Proof. by destruct s, d. Qed.

Lemma lookup_total_cast s d (l : list spec_float) i :
  (np.cast s d <$> l) !!! i = np.cast s d (l !!! i).
Proof.
  rewrite !list_lookup_total_alt, list_lookup_fmap.
  destruct (l !! i); simpl; [done | by rewrite cast_inhabitant].
Qed.

(** Lines 132 to 136: the array the three statements build. *)
Lemma grow_array old m R C K a1 a2 :
  np.shape old = [R; C; K] →
  np.assign_init (np.full [R; C; K + 1] np.nan np.float32) old = inr a1 →
  np.assign_last a1 m = inr a2 →
  ∃ rc', np.broadcast2 (np.shape m) R C = Some rc' ∧
    np.shape a2 = [R; C; K + 1] ∧ np.nd_dtype a2 = np.float32 ∧
    ∀ r c k, r < R → c < C → k < K + 1 →
      np.get3 a2 r c k =
        if k <? K
        then np.cast (np.nd_dtype old) np.float32 (np.get3 old r c k)
        else np.cast (np.nd_dtype m) np.float32 (np.bget m rc' r c).
Proof.
  intros Hold Hinit Hlast. unfold np.assign_init in Hinit.
  rewrite full_shape in Hinit.
  replace (K + 1 - 1) with K in Hinit by lia.
  case_bool_decide; [|done]. injection Hinit as <-.
  unfold np.assign_last in Hlast. cbn [np.shape np.nd_dtype] in Hlast.
  replace (K + 1 =? 0) with false in Hlast by (symmetry; apply Nat.eqb_neq; lia).
  replace (K + 1 - 1) with K in Hlast by lia.
  destruct (np.broadcast2 (np.shape m) R C) as [rc'|]; [|done].
  injection Hlast as <-. exists rc'. repeat split.
  intros r c k Hr Hc Hk. rewrite get3_tabulate3 by done.
  destruct (decide (k = K)) as [->|Hne].
  - by rewrite Nat.eqb_refl, Nat.ltb_irrefl.
  - replace (k =? K) with false by (symmetry; apply Nat.eqb_neq; lia).
    rewrite get3_tabulate3 by done.
    by replace (k <? K) with true by (symmetry; apply Nat.ltb_lt; lia).
Qed.

(** The same statements go through whenever the extents allow. *)
Lemma grow_array_ok old m R C K rc' :
  np.shape old = [R; C; K] →
  np.broadcast2 (np.shape m) R C = Some rc' →
  ∃ a1 a2,
    np.assign_init (np.full [R; C; K + 1] np.nan np.float32) old = inr a1 ∧
    np.assign_last a1 m = inr a2.
Proof.
  intros Hold Hb. unfold np.assign_init. rewrite full_shape.
  replace (K + 1 - 1) with K by lia.
  rewrite bool_decide_true by done. eexists _, _. split; [done|].
  unfold np.assign_last. cbn [np.shape np.nd_dtype].
  replace (K + 1 =? 0) with false by (symmetry; apply Nat.eqb_neq; lia).
  by rewrite Hb.
Qed.

Lemma broadcast2_exact R C : np.broadcast2 [R; C] R C = Some (R, C).
Proof.
  unfold np.broadcast2. cbn [np.strip_ones].
  destruct R as [|[|R]]; cbn [np.strip_ones];
    by rewrite !bool_decide_true by (by left).
Qed.

Lemma bget_exact m R C r c :
  np.shape m = [R; C] → r < R → c < C →
  np.bget m (R, C) r c = np.get2 m r c.
Proof.
  intros Hm Hr Hc. unfold np.bget, np.get2. rewrite Hm.
  destruct (R =? 1) eqn:HR; destruct (C =? 1) eqn:HC;
    rewrite ?Nat.eqb_eq in *; f_equal; lia.
Qed.

Lemma append_strings names name :
  np.append (LStr <$> names) name = LStr <$> (names ++ [name]).
Proof.
  unfold np.append. rewrite fmap_app. f_equal.
  rewrite <- list_fmap_compose. by apply list_fmap_ext.
Qed.

Lemma shape_live (arrs : list np.ndarray) l n sh :
  np.shape (arrs !!! l) = n :: sh → l < length arrs.
Proof.
  intros Hsh. destruct (decide (l < length arrs)) as [|Hge]; [done|].
  rewrite list_lookup_total_alt, lookup_ge_None_2 in Hsh by lia. done.
Qed.

End numpy_facts.

(** ** Rules of the weakest-precondition reading *)

Lemma wp_bind {A B} (m : M A) (f : A → M B) h Q :
  wp m h (λ r h1, match r with
                  | inr x => wp (f x) h1 Q
                  | inl e => Q (inl e) h1
                  end) →
  wp (m ≫= f) h Q.
Proof. unfold wp, mbind, M_bind. by destruct (m h) as [[e|x] h1]. Qed.

Lemma wp_run {A} (m : M A) h Q r h' : wp m h Q → m h = (r, h') → Q r h'.
Proof. unfold wp. intros Hq Hm. by rewrite Hm in Hq. Qed.

(** ** Alignment *)

Lemma reindexer_no_index target source d :
  xr.index_of target d = None ∨ xr.index_of source d = None ∨
  xr.index_of target d = xr.index_of source d →
  xr.reindexer target source d = inr None.
Proof.
  unfold xr.reindexer.
  destruct (xr.index_of target d) as [new|], (xr.index_of source d) as [old|];
    try done.
  intros [?|[?|[= ->]]]; try done. by rewrite decide_True.
Qed.

Lemma reindexers_nothing target source dims :
  (∀ d, d ∈ dims →
     xr.index_of target d = None ∨ xr.index_of source d = None ∨
     xr.index_of target d = xr.index_of source d) →
  xr.reindexers target source dims = inr (replicate (length dims) None).
Proof.
  induction dims as [|d dims IH]; intros Hd; simpl; [done|].
  rewrite reindexer_no_index by (apply Hd; left).
  rewrite IH; [done|]. intros d' Hd'. apply Hd. by right.
Qed.

Lemma index_of_empty d : xr.index_of ∅ d = None.
Proof. unfold xr.index_of. by rewrite lookup_empty. Qed.

Lemma zip_new_extent_nothing (dims : list string) (sh : list nat) n :
  length dims ≤ n →
  zip dims (zip_with np.new_extent sh (replicate n None)) = zip dims sh.
Proof.
  revert sh n. induction dims as [|d dims IH]; intros sh n Hn; [done|].
  destruct sh as [|x sh]; [done|]. destruct n as [|n]; [simpl in Hn; lia|].
  simpl. f_equal. apply IH. simpl in Hn. lia.
Qed.

Lemma reindex_nothing v n h : xr.reindex v (replicate n None) h = (inr v, h).
Proof.
  destruct v as [dims l|d labels]; [|done]. unfold xr.reindex.
  rewrite bool_decide_true; [done|]. apply Forall_forall.
  by intros ix [-> _]%elem_of_replicate.
Qed.

(** An assignment that reindexes nothing is the plain one. *)
Lemma setitem_nothing_to_reindex ds key da h :
  xr.reindexers (datasets h !!! ds) (da_coords da) (xr.dims_of (da_var da))
  = inr (replicate (length (xr.dims_of (da_var da))) None) →
  xr.setitem ds key da h = setitem_aligned ds key da h.
Proof.
  intros Hix. unfold xr.setitem, setitem_aligned.
  unfold mbind, M_bind, read_dataset, get_heap, lift. rewrite Hix.
  unfold xr.aligned_sizes. rewrite zip_new_extent_nothing by done.
  fold (xr.sizes_of h (da_var da)).
  case_bool_decide; [|done].
  by rewrite reindex_nothing.
Qed.


Lemma setitem_unlabelled ds key v h :
  xr.setitem ds key (mkDataArray v ∅) h = setitem_aligned ds key (mkDataArray v ∅) h.
Proof.
  apply setitem_nothing_to_reindex. apply reindexers_nothing.
  intros d _. right. left. apply index_of_empty.
Qed.

Lemma wp_setitem_unlabelled ds key v h Q :
  wp (setitem_aligned ds key (mkDataArray v ∅)) h Q →
  wp (xr.setitem ds key (mkDataArray v ∅)) h Q.
Proof. unfold wp. by rewrite setitem_unlabelled. Qed.

Ltac wp_prim :=
  lazymatch goal with
  | |- wp (if _ then _ else _) _ _ => fail
  | |- wp (match _ with _ => _ end) _ _ => fail
  | |- wp (mbind _ _) _ _ => fail
  | |- wp (mret _) _ _ => unfold wp at 1; cbn [mret M_ret fst snd]
  | |- wp (raise _) _ _ => unfold wp at 1; cbn [raise fst snd]
  | |- wp (lift _) _ _ => unfold wp at 1; cbn [lift fst snd]
  | |- wp get_heap _ _ => unfold wp at 1; cbn [get_heap fst snd]
  | |- wp (read_dataset _) _ _ => unfold wp at 1; cbn [read_dataset fst snd]
  | |- wp (read_array _) _ _ => unfold wp at 1; cbn [read_array fst snd]
  | |- wp (write_dataset _ _) _ _ => unfold wp at 1; cbn [write_dataset fst snd]
  | |- wp (write_array _ _) _ _ => unfold wp at 1; cbn [write_array fst snd]
  | |- wp (alloc_dataset _) _ _ => unfold wp at 1; cbn [alloc_dataset fst snd]
  | |- wp (alloc_array _) _ _ => unfold wp at 1; cbn [alloc_array fst snd]
  end; cbn [arrays datasets].

Ltac wp_open :=
  lazymatch goal with
  | |- wp (xr.coords_getitem _ _ ≫= xr.labels_of) _ _ => fail
  | |- wp (mbind _ _) _ _ => apply wp_bind
  | |- wp (np_full _ _ _) _ _ => unfold np_full
  | |- wp (setitem_init _ _) _ _ => unfold setitem_init
  | |- wp (setitem_last _ _) _ _ => unfold setitem_last
  | |- wp (xr.getitem _ _) _ _ => unfold xr.getitem
  | |- wp (xr.coords_getitem _ _) _ _ => unfold xr.coords_getitem
  | |- wp (xr.shape _) _ _ => unfold xr.shape
  | |- wp (xr.drop_dims _ _) _ _ => unfold xr.drop_dims
  | |- wp (xr.assign_coords _ _ _) _ _ => unfold xr.assign_coords
  | |- wp (xr.DataArray _ _) _ _ => unfold xr.DataArray
  | |- wp (xr.setitem _ _ _) _ _ => apply wp_setitem_unlabelled; unfold setitem_aligned
  end.

Ltac wp_go := repeat first [wp_open | wp_prim].

Section store_facts.

Context {A : Type} `{!Inhabited A}.
Implicit Types l : list A.

Lemma lookup_total_snoc l x : (l ++ [x]) !!! length l = x.
Proof. apply list_lookup_total_correct. by apply list_lookup_middle. Qed.

Lemma insert_snoc l x y : <[length l := y]> (l ++ [x]) = l ++ [y].
Proof.
  rewrite insert_app_r_alt by lia. by rewrite Nat.sub_diag.
Qed.

Lemma lookup_total_app_live l l' i : i < length l → (l ++ l') !!! i = l !!! i.
Proof. intros. by apply lookup_total_app_l. Qed.

End store_facts.

Lemma extends_refl h : extends h h.
Proof. by split. Qed.

Ltac solve_extends :=
  let Hl := fresh "Hl" in
  split; intros ? ? Hl; cbn [arrays datasets];
  pose proof (lookup_lt_Some _ _ _ Hl);
  repeat first
    [ rewrite list_lookup_insert_ne by (rewrite ?length_insert, ?length_app; simpl; lia)
    | rewrite lookup_app_l by (rewrite ?length_insert, ?length_app; simpl; lia) ];
  done.

Ltac wp_simpl :=
  cbn [da_var da_coords xr.shape_of unpack3];
  rewrite ?lookup_total_snoc, ?insert_snoc.

Ltac wp_step := repeat (progress (wp_go; wp_simpl)).

(** A leaf of the traversal where the code has raised. *)
Ltac wp_raised := split; [solve_extends | by intros ? [=]].

(** [ds.coords['indicator']] followed by [np.copy]. *)
Lemma wp_indicator_labels x h (Q : exn + list label → heap → Prop) :
  (∀ e, Q (inl e) h) →
  (∀ labels, old_labels (datasets h !!! x) labels → Q (inr labels) h) →
  wp (xr.coords_getitem x "indicator" ≫= xr.labels_of) h Q.
Proof.
  intros He Hok. apply wp_bind. unfold xr.coords_getitem. wp_go.
  destruct (xr.in_data_vars _ _) eqn:Hin; wp_go; [done|].
  destruct ((datasets h !!! x) !! "indicator") as [v|] eqn:Hv; wp_go.
  - destruct v as [|d labels]; unfold xr.labels_of; cbn [da_var]; wp_go; [done|].
    apply Hok. left. by exists d.
  - destruct (xr.dim_size _ _ _) as [n|] eqn:Hn; wp_go; [|done].
    unfold xr.labels_of; cbn [da_var]; wp_go.
    apply Hok. right. split; [done|]. by exists n.
Qed.



(** ** Dimensions and their extents *)

Section dimension_facts.

Implicit Types (h : heap) (ds : Dataset) (v : variable).

Lemma fits_spec h ds sizes :
  xr.fits h ds sizes ↔
  ∀ key v d n n', ds !! key = Some v →
    (d, n) ∈ xr.sizes_of h v → (d, n') ∈ sizes → n' = n.
Proof.
  unfold xr.fits. rewrite map_Forall_lookup. split.
  - intros H key v d n n' Hkey Hn Hn'.
    specialize (H key v Hkey). rewrite Forall_forall in H.
    specialize (H _ Hn). rewrite Forall_forall in H.
    by apply (H _ Hn').
  - intros H key v Hkey. apply Forall_forall. intros [d n] Hn.
    apply Forall_forall. intros [d' n'] Hn'. simpl. intros ->.
    by apply (H key v d n n').
Qed.

Lemma sizes_of_dim h v d n : (d, n) ∈ xr.sizes_of h v → d ∈ xr.dims_of v.
Proof. unfold xr.sizes_of. apply elem_of_zip_l. Qed.

(** The extents of a variable are those of the store it was built in. *)
Lemma sizes_of_extends h h' ds key v :
  extends h h' → live h ds → ds !! key = Some v →
  xr.sizes_of h' v = xr.sizes_of h v.
Proof.
  intros [Harr _] Hlive Hkey. destruct v as [dims l|d labels]; [|done].
  destruct (Hlive _ _ _ Hkey) as [a Ha].
  unfold xr.sizes_of, xr.shape_of.
  by rewrite (list_lookup_total_correct _ _ _ Ha),
             (list_lookup_total_correct _ _ _ (Harr _ _ Ha)).
Qed.

Lemma without_indicator_lookup ds key v :
  without_indicator ds !! key = Some v ↔
  ds !! key = Some v ∧ "indicator" ∉ xr.dims_of v.
Proof. unfold without_indicator. by rewrite map_lookup_filter_Some. Qed.

Lemma live_without_indicator h ds : live h ds → live h (without_indicator ds).
Proof.
  intros Hlive key dims l [Hkey _]%without_indicator_lookup. by eapply Hlive.
Qed.

(** No variable is left on the dropped dimension. *)
Lemma fits_without_indicator h ds n :
  xr.fits h (delete "indicator" (without_indicator ds)) [("indicator", n)].
Proof.
  apply fits_spec. intros key v d k k' Hkey Hk Hk'.
  apply lookup_delete_Some in Hkey as [_ [_ Hno]%without_indicator_lookup].
  apply list_elem_of_singleton in Hk'. inversion Hk'; subst.
  by apply sizes_of_dim in Hk.
Qed.

Lemma append_length labels name :
  length (np.append labels name) = length labels + 1.
Proof. unfold np.append. by rewrite length_app, length_fmap. Qed.

Lemma elem_of_layer_sizes (d : string) (n R C K : nat) :
  (d, n) ∈ [("row", R); ("col", C); ("indicator", K)] ↔
  (d = "row" ∧ n = R) ∨ (d = "col" ∧ n = C) ∨ (d = "indicator" ∧ n = K).
Proof.
  rewrite !elem_of_cons, elem_of_nil. split.
  - intros [[= -> ->]|[[= -> ->]|[[= -> ->]|[]]]]; auto.
  - intros [[-> ->]|[[-> ->]|[-> ->]]]; auto.
Qed.

(** The new layer fits the dataset the old one came from. *)
Lemma fits_grown h h' vars l labels name R C K :
  extends h h' → wf_dataset h vars →
  vars !! "confidence_measure" = Some (DataVar ["row"; "col"; "indicator"] l) →
  vars !! "indicator" = Some (Coordinate "indicator" labels) →
  np.shape (arrays h !!! l) = [R; C; K] →
  xr.fits h'
    (delete "confidence_measure"
       (<["indicator" := Coordinate "indicator" (np.append labels name)]>
          (without_indicator vars)))
    [("row", R); ("col", C); ("indicator", K + 1)].
Proof.
  intros Hext [Hlive Hcons] Hcm Hind Hsh.
  assert (Hold : xr.sizes_of h (DataVar ["row"; "col"; "indicator"] l)
                 = [("row", R); ("col", C); ("indicator", K)]).
  { unfold xr.sizes_of, xr.shape_of. by rewrite Hsh. }
  assert (HK : length labels = K).
  { apply (Hcons _ _ _ _ "indicator" _ _ Hind Hcm).
    - by apply list_elem_of_singleton.
    - rewrite Hold. apply elem_of_layer_sizes. auto. }
  apply fits_spec. intros key v d n n' Hkey Hn Hn'.
  apply lookup_delete_Some in Hkey as [Hne Hkey].
  apply lookup_insert_Some in Hkey as [[<- <-]|[Hne' Hkey]].
  - apply list_elem_of_singleton in Hn. injection Hn as Hd Hn2.
    rewrite Hn2, append_length, HK.
    apply elem_of_layer_sizes in Hn' as [[? ?]|[[? ?]|[? ?]]]; congruence.
  - apply without_indicator_lookup in Hkey as [Hkey Hno].
    rewrite (sizes_of_extends h h' vars key v) in Hn by done.
    pose proof (sizes_of_dim _ _ _ _ Hn) as Hd.
    assert (∀ k, (d, k) ∈ [("row", R); ("col", C); ("indicator", K)] → k = n) as Hk.
    { intros k Hk. rewrite <- Hold in Hk. by apply (Hcons _ _ _ _ d _ _ Hcm Hkey). }
    apply elem_of_layer_sizes in Hn' as [[-> ->]|[[-> ->]|[-> ->]]];
      [apply Hk, elem_of_layer_sizes; auto.. | done].
Qed.

(** A fresh layer fits a dataset whose extents are those of the map. *)
Lemma fits_allocated h h' vars name R C :
  extends h h' → live h vars →
  xr.fits h (delete "indicator" vars) [("row", R); ("col", C); ("indicator", 1)] →
  xr.fits h'
    (delete "confidence_measure"
       (<["indicator" := Coordinate "indicator" [LStr name]]> vars))
    [("row", R); ("col", C); ("indicator", 1)].
Proof.
  intros Hext Hlive Hfit.
  apply fits_spec. intros key v d n n' Hkey Hn Hn'.
  apply lookup_delete_Some in Hkey as [Hne Hkey].
  apply lookup_insert_Some in Hkey as [[<- <-]|[Hne' Hkey]].
  - apply list_elem_of_singleton in Hn. injection Hn as Hd Hn2. rewrite Hn2.
    apply elem_of_layer_sizes in Hn' as [[? ?]|[[? ?]|[? ?]]]; congruence.
  - rewrite (sizes_of_extends h h' vars key v) in Hn by done.
    rewrite fits_spec in Hfit. apply (Hfit key v d n n'); [|done..].
    by apply lookup_delete_Some.
Qed.

(** Extents are read off the arrays of the store alone. *)
Lemma sizes_of_arrays h h' v :
  arrays h = arrays h' → xr.sizes_of h v = xr.sizes_of h' v.
Proof. intros Harr. unfold xr.sizes_of, xr.shape_of. by rewrite Harr. Qed.

Lemma fits_arrays h h' ds sizes :
  arrays h = arrays h' → xr.fits h ds sizes → xr.fits h' ds sizes.
Proof.
  intros Harr Hfit. apply fits_spec. intros key v d n n' Hkey Hn Hn'.
  rewrite <- (sizes_of_arrays h h') in Hn by done.
  rewrite fits_spec in Hfit. by apply (Hfit key v d n n').
Qed.

Lemma fits_sublist h ds sizes sizes' :
  sizes' ⊆ sizes → xr.fits h ds sizes → xr.fits h ds sizes'.
Proof.
  intros Hsub Hfit. apply fits_spec. intros key v d n n' Hkey Hn Hn'.
  rewrite fits_spec in Hfit. apply (Hfit key v d n n'); [done..|]. by apply Hsub.
Qed.

Lemma fits_delete h ds key sizes :
  xr.fits h ds sizes → xr.fits h (delete key ds) sizes.
Proof.
  intros Hfit. apply fits_spec. intros k v d n n' [_ Hk]%lookup_delete_Some Hn Hn'.
  rewrite fits_spec in Hfit. by apply (Hfit k v d n n').
Qed.

End dimension_facts.

(** ** The two halves of [allocate_confidence_map] *)

Lemma wp_returns {A} (m : M A) h :
  wp m h (λ r _, ∃ x, r = inr x) → ∃ x h', m h = (inr x, h').
Proof.
  unfold wp. destruct (m h) as [r h']. simpl. intros [x ->]. by exists x, h'.
Qed.

(** The check of [ds[key] = da] at the end of both branches, on the extents
    of the layer. *)
Lemma setitem_check h (merged : Dataset) L R C K :
  np.shape (arrays h !!! L) = [R; C; K] →
  xr.fits h (delete "confidence_measure" (merged ∪ ∅))
          (xr.sizes_of h (DataVar ["row"; "col"; "indicator"] L)) ↔
  xr.fits h (delete "confidence_measure" merged)
          [("row", R); ("col", C); ("indicator", K)].
Proof.
  intros Hsh. rewrite (right_id_L ∅ (∪)).
  unfold xr.sizes_of at 1, xr.shape_of. by rewrite Hsh.
Qed.

(** Lines 129 to 144: whatever happens nothing of the store is lost, and a
    return leaves the store as [grow_post] says. *)
Lemma update_cost_volume_grow name m x h vars dims l :
  datasets h !!! x = vars →
  vars !! "confidence_measure" = Some (DataVar dims l) →
  wp (update_cost_volume name m x) h (λ r h',
    extends h h' ∧ ∀ x', r = inr x' → grow_post h vars l name m x' h').
Proof.
  intros Hv Hcm. unfold update_cost_volume.
  wp_go. rewrite Hv. unfold xr.in_data_vars. rewrite Hcm.
  wp_go. rewrite Hv, Hcm. wp_step.
  destruct (np.shape (arrays h !!! l)) as [|R [|C [|K [|]]]] eqn:Hsh;
    wp_step; try wp_raised.
  rewrite Hv, Hcm. wp_go. unfold xr.data. wp_step.
  pose proof (shape_live _ _ _ _ Hsh) as Hl.
  rewrite (lookup_total_app_live _ _ _ Hl).
  destruct (np.assign_init _ _) as [e|a1] eqn:Hinit; wp_step; [wp_raised|].
  destruct (np.assign_last _ _) as [e|a2] eqn:Hlast; wp_step; [wp_raised|].
  destruct (grow_array _ _ _ _ _ _ _ Hsh Hinit Hlast) as (rc' & Hb & Hsh2 & Hdt & Hget).
  apply wp_indicator_labels; [intros e; wp_raised|].
  intros labels Hlabels. cbn [datasets] in Hlabels. rewrite Hv in Hlabels.
  wp_go. rewrite Hv. case_bool_decide as Hdim; wp_step; [|wp_raised].
  case_bool_decide as Hfit; wp_step; [|wp_raised].
  unfold np.ndim. rewrite Hsh2.
  case_bool_decide as Hnd; [|done]. wp_step.
  case_bool_decide as Hfit2; wp_step; [|wp_raised].
  split; [solve_extends|]. intros x' [= <-].
  apply setitem_check with (R := R) (C := C) (K := K + 1) in Hfit2;
    [|cbn [arrays]; by rewrite lookup_total_snoc].
  exists R, C, K, rc', labels, a2. eexists. cbn [arrays datasets].
  rewrite length_app, Nat.add_1_r, <- app_assoc, (right_id_L ∅ (∪)).
  repeat split; try done.
  rewrite delete_insert_eq. by eapply fits_arrays; [|exact Hfit2].
Qed.

(** Lines 129 to 144 return on a well-formed dataset with its layer. *)
Lemma update_cost_volume_grow_ok name m x h vars l R C K rc' labels :
  datasets h !!! x = vars → wf_dataset h vars →
  vars !! "confidence_measure" = Some (DataVar ["row"; "col"; "indicator"] l) →
  vars !! "indicator" = Some (Coordinate "indicator" labels) →
  np.shape (arrays h !!! l) = [R; C; K] →
  np.broadcast2 (np.shape m) R C = Some rc' →
  ∃ x' h', update_cost_volume name m x h = (inr x', h').
Proof.
  intros Hv Hwf Hcm Hind Hsh Hb. apply wp_returns.
  unfold update_cost_volume.
  wp_go. rewrite Hv. unfold xr.in_data_vars. rewrite Hcm.
  wp_go. rewrite Hv, Hcm. wp_step. rewrite Hsh. wp_step.
  rewrite Hv, Hcm. wp_go. unfold xr.data. wp_step.
  pose proof (shape_live _ _ _ _ Hsh) as Hl.
  rewrite (lookup_total_app_live _ _ _ Hl).
  destruct (grow_array_ok _ _ _ _ _ _ Hsh Hb) as (a1 & a2 & Hinit & Hlast).
  wp_step. rewrite Hinit. wp_step. rewrite Hlast. wp_step.
  destruct (grow_array _ _ _ _ _ _ _ Hsh Hinit Hlast) as (? & _ & Hsh2 & _).
  apply wp_bind. unfold xr.coords_getitem. wp_go. rewrite Hv.
  unfold xr.in_data_vars. rewrite Hind. wp_go. rewrite Hv, Hind. wp_go.
  unfold xr.labels_of. wp_step. rewrite Hv.
  rewrite bool_decide_true by (by exists "indicator", (Coordinate "indicator" labels);
    split; [|apply list_elem_of_singleton]).
  wp_step.
  rewrite bool_decide_true by apply fits_without_indicator.
  wp_step. unfold np.ndim. rewrite Hsh2.
  rewrite bool_decide_true by done. wp_step.
  rewrite bool_decide_true; [wp_step; by eexists|].
  apply (setitem_check _ _ _ R C (K + 1));
    [cbn [arrays]; by rewrite lookup_total_snoc|].
  apply (fits_grown h _ vars l labels name R C K); [solve_extends | done..].
Qed.

(** Lines 147 to 149, likewise. *)
Lemma update_cost_volume_alloc name m x h vars :
  datasets h !!! x = vars →
  xr.in_data_vars "confidence_measure" vars = false →
  wp (update_cost_volume name m x) h (λ r h',
    extends h h' ∧ ∀ x', r = inr x' → alloc_post h vars name m x' h').
Proof.
  intros Hv Hin. unfold update_cost_volume.
  wp_go. rewrite Hv, Hin. wp_step. rewrite Hv.
  case_bool_decide as Hfit; wp_step; [|wp_raised].
  unfold np.newaxis2.
  destruct (np.shape m) as [|R [|C rest]] eqn:Hm; wp_step; try wp_raised.
  unfold np.ndim. cbn [np.astype np.shape length].
  case_bool_decide as Hnd; wp_step; [|wp_raised].
  case_bool_decide as Hfit2; wp_step; [|wp_raised].
  split; [solve_extends|]. intros x' [= <-].
  destruct rest; [|done].
  apply setitem_check with (R := R) (C := C) (K := 1) in Hfit2;
    [|cbn [arrays]; by rewrite lookup_total_snoc].
  exists R, C. eexists. cbn [arrays datasets]. rewrite (right_id_L ∅ (∪)).
  repeat split; try done.
  rewrite delete_insert_eq. by eapply fits_arrays; [|exact Hfit2].
Qed.

Lemma update_cost_volume_alloc_ok name m x h vars R C :
  datasets h !!! x = vars → live h vars →
  xr.in_data_vars "confidence_measure" vars = false →
  xr.fits h (delete "indicator" vars) [("row", R); ("col", C); ("indicator", 1)] →
  np.shape m = [R; C] →
  ∃ x' h', update_cost_volume name m x h = (inr x', h').
Proof.
  intros Hv Hlive Hin Hfit Hm. apply wp_returns. unfold update_cost_volume.
  wp_go. rewrite Hv, Hin. wp_step. rewrite Hv.
  rewrite bool_decide_true.
  2:{ eapply fits_sublist; [|done]. intros p Hp%list_elem_of_singleton.
      rewrite Hp. apply elem_of_layer_sizes. auto. }
  wp_step. unfold np.newaxis2. rewrite Hm. wp_step.
  unfold np.ndim. cbn [np.astype np.shape length].
  rewrite bool_decide_true by done. wp_step.
  rewrite bool_decide_true; [wp_step; by eexists|].
  apply (setitem_check _ _ _ R C 1); [cbn [arrays]; by rewrite lookup_total_snoc|].
  apply (fits_allocated h _ vars name R C); [solve_extends | done..].
Qed.

Lemma bind_map_result {A B C} (m : M A) (f : A → M B) (g : A → M C) (φ : B → C) h :
  (∀ x h1, g x h1 = map_result φ (f x h1)) →
  (m ≫= g) h = map_result φ ((m ≫= f) h).
Proof.
  intros H. unfold mbind, M_bind. destruct (m h) as [[e|x] h1]; [done|]. apply H.
Qed.

Lemma bind_read_dataset {B} l (f : Dataset → M B) h :
  (read_dataset l ≫= f) h = f (datasets h !!! l) h.
Proof. done. Qed.

(** Lines 153 to 168 are lines 129 to 144 with [disp] for [cv]. *)
Lemma update_disparity_map_grow name m d cv h :
  xr.in_data_vars "confidence_measure" (datasets h !!! d) = true →
  update_disparity_map name m (Some d) cv h =
  map_result Some (update_cost_volume name m d h).
Proof.
  intros Hin. unfold update_disparity_map, update_cost_volume.
  rewrite !bind_read_dataset, Hin.
  repeat (apply (bind_map_result _ _ _ Some);
          let x := fresh in
          intros x ?;
          lazymatch type of x with
          | (_ * _)%type => destruct x as [[? ?] ?]
          | _ => idtac
          end).
  done.
Qed.


(** Line 170 in general: the dataset [d] is updated in place or not at all,
    and the layer it gets is that of the cost volume, or a new array when
    the layer had to be reindexed. *)
Lemma update_disparity_map_alias_post name m d cv h v :
  xr.in_data_vars "confidence_measure" (datasets h !!! d) = false →
  (datasets h !!! cv) !! "confidence_measure" = Some v →
  wp (update_disparity_map name m (Some d) cv) h (λ r h',
    (∀ e, r = inl e → h' = h) ∧
    (∀ d', r = inr d' →
       d' = Some d ∧
       ∃ v',
         datasets h' =
           <[d := <["confidence_measure" := v']>
                    (datasets h !!! d ∪ layer_coords (datasets h !!! cv) v)]> (datasets h) ∧
         ((v' = v ∧ arrays h' = arrays h) ∨
          (∃ dims l a', v = DataVar dims l ∧ v' = DataVar dims (length (arrays h)) ∧
                        arrays h' = arrays h ++ [a'])))).
Proof.
  intros Hin Hcm. unfold update_disparity_map.
  wp_go. rewrite Hin. wp_go. rewrite Hcm. wp_step.
  fold (layer_coords (datasets h !!! cv) v).
  unfold xr.setitem. wp_go.
  destruct (xr.reindexers _ _ _) as [e|ixs]; wp_step.
  { split; [intros _ _; by destruct h | done]. }
  case_bool_decide as Hfit; wp_step.
  2:{ split; [intros _ _; by destruct h | done]. }
  unfold xr.reindex. destruct v as [dims l|dim labels].
  - case_bool_decide as Hnone; wp_step.
    + split; [done|]. intros d' [= <-]. split; [done|]. eexists. split; [done|].
      by left.
    + split; [done|]. intros d' [= <-]. split; [done|]. eexists. split; [done|].
      right. by eexists dims, l, _.
  - wp_step. split; [done|]. intros d' [= <-]. split; [done|]. eexists.
    split; [done|]. by left.
Qed.

Lemma update_disparity_map_none name m cv h :
  update_disparity_map name m None cv h = (inr None, h).
Proof. done. Qed.

Lemma allocate_confidence_map_unfold name m disp cv h :
  allocate_confidence_map name m disp cv h =
  match update_cost_volume name m cv h with
  | (inr cv', h1) => map_result (λ d', (d', cv')) (update_disparity_map name m disp cv' h1)
  | (inl e, h1) => (inl e, h1)
  end.
Proof.
  unfold allocate_confidence_map, mbind, M_bind, map_result.
  destruct (update_cost_volume name m cv h) as [[e|cv'] h1]; [done|].
  by destruct (update_disparity_map name m disp cv' h1) as [[e|d'] h'].
Qed.

(** ** The confidence layer after each branch *)

Lemma lookup_snoc2 {A} (l : list A) a b : (l ++ [a; b]) !! S (length l) = Some b.
Proof.
  rewrite lookup_app_r by lia. by replace (S (length l) - length l) with 1 by lia.
Qed.

Lemma lookup_snoc {A} (l : list A) a : (l ++ [a]) !! length l = Some a.
Proof. by apply list_lookup_middle. Qed.

Lemma extends_trans h1 h2 h3 : extends h1 h2 → extends h2 h3 → extends h1 h3.
Proof. intros [? ?] [? ?]. split; eauto. Qed.

Lemma in_data_vars_true key (vars : Dataset) :
  xr.in_data_vars key vars = true → ∃ dims l, vars !! key = Some (DataVar dims l).
Proof.
  unfold xr.in_data_vars. destruct (vars !! key) as [[dims l|]|]; [eauto|done..].
Qed.

Lemma grow_post_layer h vars l name m x' h' :
  grow_post h vars l name m x' h' →
  ∃ R C K rc' labels a',
    np.shape (arrays h !!! l) = [R; C; K] ∧ l < length (arrays h) ∧
    np.broadcast2 (np.shape m) R C = Some rc' ∧
    old_labels vars labels ∧
    confidence_layer h' x' (length (arrays h)) a' (np.append labels name) ∧
    np.shape a' = [R; C; K + 1] ∧ np.nd_dtype a' = np.float32 ∧
    ∀ r c k, r < R → c < C → k < K + 1 →
      np.get3 a' r c k =
        if k <? K
        then np.cast (np.nd_dtype (arrays h !!! l)) np.float32
                     (np.get3 (arrays h !!! l) r c k)
        else np.cast (np.nd_dtype m) np.float32 (np.bget m rc' r c).
Proof.
  intros (R & C & K & rc' & labels & a' & final & Hsh & Hl & Hb & Hlab & -> & Harr
          & -> & Hds & _ & Hrest).
  exists R, C, K, rc', labels, a'. repeat (split; [done|]).
  split; [|done]. split; eexists; (split; [rewrite Hds; apply lookup_snoc2|]).
  - split; [by rewrite lookup_insert_eq|]. rewrite Harr. apply lookup_snoc.
  - rewrite lookup_insert_ne by done. by rewrite lookup_insert_eq.
Qed.

Lemma grow_post_carries h vars l name m x' h' :
  grow_post h vars l name m x' h' → carries h' x' name m.
Proof.
  intros (R & C & K & rc' & labels & a' & _ & _ & Hb & _ & Hlayer & Hsh & Hdt & Hget)
    %grow_post_layer.
  exists (length (arrays h)), a', (LStr ∘ np.str <$> labels), R, C, K, rc'.
  repeat (split; [done|]). intros r c Hr Hc.
  rewrite Hget by lia. by rewrite Nat.ltb_irrefl.
Qed.

Lemma alloc_post_layer h vars name m x' h' :
  alloc_post h vars name m x' h' →
  ∃ R C a',
    np.shape m = [R; C] ∧
    confidence_layer h' x' (length (arrays h)) a' [LStr name] ∧
    np.shape a' = [R; C; 1] ∧ np.nd_dtype a' = np.float32 ∧
    ∀ r c, r < R → c < C →
      np.get3 a' r c 0 = np.cast (np.nd_dtype m) np.float32 (np.get2 m r c).
Proof.
  intros (R & C & final & Hm & -> & Harr & -> & Hds & _).
  exists R, C. eexists. split; [done|]. split; [|split; [|split]].
  - split; eexists; (split; [rewrite Hds; apply lookup_snoc|]).
    + split; [by rewrite lookup_insert_eq|]. rewrite Harr. apply lookup_snoc.
    + rewrite lookup_insert_ne by done. by rewrite lookup_insert_eq.
  - done.
  - done.
  - intros r c Hr Hc. unfold np.get3, np.get2, np.astype, np.ravel3.
    cbn [np.shape np.data np.nd_dtype]. rewrite Hm, lookup_total_cast.
    do 2 f_equal. lia.
Qed.

Lemma alloc_post_carries h vars name m x' h' :
  alloc_post h vars name m x' h' → carries h' x' name m.
Proof.
  intros (R & C & a' & Hm & Hlayer & Hsh & Hdt & Hget)%alloc_post_layer.
  exists (length (arrays h)), a', [], R, C, 0, (R, C).
  repeat (split; [done|]). split; [rewrite Hm; apply broadcast2_exact|].
  intros r c Hr Hc. rewrite Hget by done. by rewrite bget_exact.
Qed.

Lemma confidence_layer_preserved h h' x l a labels :
  (∀ l a, arrays h !! l = Some a → arrays h' !! l = Some a) →
  (∀ ds, datasets h !! x = Some ds → datasets h' !! x = Some ds) →
  confidence_layer h x l a labels → confidence_layer h' x l a labels.
Proof.
  intros Harr Hds [(vars & Hx & Hcm & Ha) (vars' & Hx' & Hind)].
  split; eexists; eauto.
Qed.


(** ** Outcomes of the two halves and of the call *)

(** Lines 128 to 149, whatever the outcome. *)
Lemma update_cost_volume_post name m x h r h' :
  update_cost_volume name m x h = (r, h') →
  extends h h' ∧
  ∀ x', r = inr x' →
    (∃ dims l, (datasets h !!! x) !! "confidence_measure" = Some (DataVar dims l) ∧
               grow_post h (datasets h !!! x) l name m x' h') ∨
    (xr.in_data_vars "confidence_measure" (datasets h !!! x) = false ∧
     alloc_post h (datasets h !!! x) name m x' h').
Proof.
  intros Hrun.
  destruct (xr.in_data_vars "confidence_measure" (datasets h !!! x)) eqn:Hin.
  - destruct (in_data_vars_true _ _ Hin) as (dims & l & Hcm).
    destruct (wp_run _ _ _ _ _ (update_cost_volume_grow name m x h _ dims l eq_refl Hcm) Hrun)
      as [Hext Hpost].
    split; [done|]. intros x' Hx'. left. exists dims, l. split; [done|]. by apply Hpost.
  - destruct (wp_run _ _ _ _ _ (update_cost_volume_alloc name m x h _ eq_refl Hin) Hrun)
      as [Hext Hpost].
    split; [done|]. intros x' Hx'. right. split; [done|]. by apply Hpost.
Qed.

Lemma update_cost_volume_carries name m x h x' h' :
  update_cost_volume name m x h = (inr x', h') →
  length (datasets h) ≤ x' ∧ carries h' x' name m.
Proof.
  intros Hrun. destruct (update_cost_volume_post _ _ _ _ _ _ Hrun) as [_ Hpost].
  destruct (Hpost x' eq_refl) as [(dims & l & _ & Hg)|[_ Ha]].
  - split; [|by eapply grow_post_carries].
    destruct Hg as (? & ? & ? & ? & ? & ? & ? & _ & _ & _ & _ & -> & _). lia.
  - split; [|by eapply alloc_post_carries].
    destruct Ha as (? & ? & ? & _ & -> & _). lia.
Qed.

(** Lines 151 to 170 on a disparity map, whatever the outcome; [cv] has its
    layer by then. *)
Lemma update_disparity_map_post name m d cv h r h' v :
  (datasets h !!! cv) !! "confidence_measure" = Some v →
  update_disparity_map name m (Some d) cv h = (r, h') →
  (∀ l a, arrays h !! l = Some a → arrays h' !! l = Some a) ∧
  (∀ x ds, x ≠ d → datasets h !! x = Some ds → datasets h' !! x = Some ds) ∧
  (∀ e, r = inl e → extends h h') ∧
  ∀ d', r = inr d' →
    (∃ dims l d'', d' = Some d'' ∧
       (datasets h !!! d) !! "confidence_measure" = Some (DataVar dims l) ∧
       grow_post h (datasets h !!! d) l name m d'' h') ∨
    (xr.in_data_vars "confidence_measure" (datasets h !!! d) = false ∧
     d' = Some d ∧
     ∃ v',
       datasets h' =
         <[d := <["confidence_measure" := v']>
                  (datasets h !!! d ∪ layer_coords (datasets h !!! cv) v)]> (datasets h) ∧
       ((v' = v ∧ arrays h' = arrays h) ∨
        (∃ dims l a', v = DataVar dims l ∧ v' = DataVar dims (length (arrays h)) ∧
                      arrays h' = arrays h ++ [a']))).
Proof.
  intros Hcm Hrun.
  destruct (xr.in_data_vars "confidence_measure" (datasets h !!! d)) eqn:Hin.
  - rewrite update_disparity_map_grow in Hrun by done.
    destruct (update_cost_volume name m d h) as [r1 h1] eqn:Hrun1.
    unfold map_result in Hrun. simpl in Hrun. injection Hrun as <- <-.
    destruct (update_cost_volume_post _ _ _ _ _ _ Hrun1) as [[Harr Hds] Hpost].
    split; [done|]. split; [by eauto|]. split; [by intros|].
    intros d' Hd'. destruct r1 as [e|d'']; [done|]. injection Hd' as <-.
    destruct (Hpost d'' eq_refl) as [(dims & l & Hl & Hg)|[Hno _]]; [|congruence].
    left. by exists dims, l, d''.
  - pose proof (wp_run _ _ _ _ _
      (update_disparity_map_alias_post name m d cv h v Hin Hcm) Hrun) as (Herr & Hok).
    destruct r as [e|d'].
    + rewrite (Herr e eq_refl). repeat split; done.
    + destruct (Hok d' eq_refl) as (-> & v' & Hds & Hv').
      split.
      { destruct Hv' as [[_ ->]|(? & ? & ? & _ & _ & ->)]; [done|].
        intros l a. apply lookup_app_l_Some. }
      split.
      { intros x ds Hx Hx'. by rewrite Hds, list_lookup_insert_ne. }
      split; [done|]. intros ? [= <-]. right. split; [done|]. split; [done|].
      by exists v'.
Qed.



(** A call that returns: its two halves returned, and the second left the
    returned cost volume as the first built it. *)
Lemma allocate_returns name m disp cv h d' cv' h' :
  (∀ d, disp = Some d → d < length (datasets h)) →
  allocate_confidence_map name m disp cv h = (inr (d', cv'), h') →
  ∃ h1, update_cost_volume name m cv h = (inr cv', h1) ∧
        update_disparity_map name m disp cv' h1 = (inr d', h') ∧
        (∀ l a, arrays h1 !! l = Some a → arrays h' !! l = Some a) ∧
        (∀ ds, datasets h1 !! cv' = Some ds → datasets h' !! cv' = Some ds).
Proof.
  intros Hdisp Hrun. rewrite allocate_confidence_map_unfold in Hrun.
  destruct (update_cost_volume name m cv h) as [[e|cv1] h1] eqn:Hcv; [done|].
  destruct (update_disparity_map name m disp cv1 h1) as [[e|d1] h2] eqn:Hdm; [done|].
  unfold map_result in Hrun. simpl in Hrun. injection Hrun as <- <- <-.
  exists h1. split; [done|]. split; [done|].
  destruct disp as [d|].
  2:{ rewrite update_disparity_map_none in Hdm. by injection Hdm as _ <-. }
  destruct (update_cost_volume_carries _ _ _ _ _ _ Hcv) as [Hfresh Hcarries].
  destruct Hcarries as (l & a & ? & ? & ? & ? & ? & [(vars & Hcv' & Hcm & _) _] & _).
  rewrite <- (list_lookup_total_correct _ _ _ Hcv') in Hcm.
  destruct (update_disparity_map_post _ _ _ _ _ _ _ _ Hcm Hdm) as (Harr & Hds & _).
  split; [done|]. intros ds. apply Hds. specialize (Hdisp d eq_refl). lia.
Qed.

(** ** Checking a concrete dataset *)

Lemma live_check h (ds : Dataset) : map_Forall (λ _ v, live_var h v) ds → live h ds.
Proof. intros H key dims l Hkey. apply (H key _ Hkey). Qed.

Lemma consistent_check h (ds : Dataset) :
  map_Forall (λ _ v, xr.fits h ds (xr.sizes_of h v)) ds → consistent h ds.
Proof.
  intros H k1 v1 k2 v2 d n1 n2 Hk1 Hk2 Hn1 Hn2.
  specialize (H k2 v2 Hk2). rewrite fits_spec in H.
  symmetry. by apply (H k1 v1 d n1 n2).
Qed.

Lemma wf_dataset_check h (ds : Dataset) :
  map_Forall (λ _ v, live_var h v) ds →
  map_Forall (λ _ v, xr.fits h ds (xr.sizes_of h v)) ds →
  wf_dataset h ds.
Proof. intros. split; [by apply live_check | by apply consistent_check]. Qed.

Ltac check :=
  lazymatch goal with
  | |- ?P => refine (@bool_decide_unpack P _ _); vm_compute; exact I
  end.

Example store1_cost_volume :
  datasets store1 !! 2 =
  Some (<["confidence_measure" := DataVar ["row"; "col"; "indicator"] 2]>
          (<["indicator" := Coordinate "indicator" [LStr "ambiguity"]]> cost_volume_ds)).
Proof. vm_compute. reflexivity. Qed.

Example store1_wf : wf_dataset store1 (datasets store1 !!! 2).
Proof. apply wf_dataset_check; check. Qed.

(** ** A dataset that has its layer grows by one slice *)

Lemma grow_inv name m x h x' h1 vars dims l a R C K :
  update_cost_volume name m x h = (inr x', h1) →
  datasets h !! x = Some vars →
  vars !! "confidence_measure" = Some (DataVar dims l) →
  arrays h !! l = Some a → np.shape a = [R; C; K] →
  ∃ rc' labels a',
    np.broadcast2 (np.shape m) R C = Some rc' ∧
    old_labels vars labels ∧
    confidence_layer h1 x' (length (arrays h)) a' (np.append labels name) ∧
    np.shape a' = [R; C; K + 1] ∧ np.nd_dtype a' = np.float32 ∧
    ∀ r c k, r < R → c < C → k < K + 1 →
      np.get3 a' r c k =
        if k <? K
        then np.cast (np.nd_dtype a) np.float32 (np.get3 a r c k)
        else np.cast (np.nd_dtype m) np.float32 (np.bget m rc' r c).
Proof.
  intros Hrun Hx Hcm Ha Hsh.
  pose proof (list_lookup_total_correct _ _ _ Hx) as Hv.
  pose proof (list_lookup_total_correct _ _ _ Ha) as Ha'.
  destruct (wp_run _ _ _ _ _ (update_cost_volume_grow name m x h vars dims l Hv Hcm) Hrun)
    as [_ Hpost].
  destruct (grow_post_layer _ _ _ _ _ _ _ (Hpost x' eq_refl))
    as (R' & C' & K' & rc' & labels & a' & Hsh' & _ & Hb & Hlab & Hlayer & Hsha & Hdt & Hget).
  rewrite Ha', Hsh in Hsh'. injection Hsh' as <- <- <-. rewrite Ha' in Hget.
  by exists rc', labels, a'.
Qed.

Lemma old_labels_coordinate vars d labels labels' :
  vars !! "indicator" = Some (Coordinate d labels) →
  old_labels vars labels' → labels' = labels.
Proof. intros Hind [[d' Hd']|[Hnone _]]; congruence. Qed.

(** C1.  When the cost volume already carries a confidence layer of shape
    (R, C, K) labelled by [names], merging the indicator [name] with a map of
    extents (R, C) returns a cost volume whose layer has shape (R, C, K + 1):
    slices 0 to K - 1 are the prior slices, slice K is the map, and the labels
    are [names] with [name] appended.  The call returns when there is no
    disparity map, and the cost volume is as said whenever it returns. *)
Theorem grow_preserves_prior_slices name m disp cv h vars l a names R C K :
  datasets h !! cv = Some vars → wf_dataset h vars →
  confidence_layer h cv l a (LStr <$> names) →
  np.shape a = [R; C; K] → np.nd_dtype a = np.float32 →
  np.shape m = [R; C] → np.nd_dtype m = np.float32 →
  (∀ d, disp = Some d → is_Some (datasets h !! d)) →
  (∃ cv' h', allocate_confidence_map name m None cv h = (inr (None, cv'), h')) ∧
  ∀ d' cv' h',
    allocate_confidence_map name m disp cv h = (inr (d', cv'), h') →
    ∃ l' a',
      confidence_layer h' cv' l' a' (LStr <$> names ++ [name]) ∧
      np.shape a' = [R; C; K + 1] ∧ np.nd_dtype a' = np.float32 ∧
      (∀ r c k, r < R → c < C → k < K → np.get3 a' r c k = np.get3 a r c k) ∧
      (∀ r c, r < R → c < C → np.get3 a' r c K = np.get2 m r c).
Proof.
  intros Hcv Hwf [(vars' & Hcv' & Hcm & Ha) (vars'' & Hcv'' & Hind)] Hsh Hdt Hm Hdtm Hdisp.
  assert (vars' = vars) as -> by congruence.
  assert (vars'' = vars) as -> by congruence.
  pose proof (list_lookup_total_correct _ _ _ Hcv) as Hv.
  pose proof (list_lookup_total_correct _ _ _ Ha) as Ha'.
  assert (Hb : np.broadcast2 (np.shape m) R C = Some (R, C))
    by (rewrite Hm; apply broadcast2_exact).
  split.
  - destruct (update_cost_volume_grow_ok name m cv h vars l R C K (R, C) (LStr <$> names))
      as (cv' & h1 & Hrun); [by rewrite ?Ha'..|].
    exists cv', h1. rewrite allocate_confidence_map_unfold, Hrun.
    by rewrite update_disparity_map_none.
  - intros d' cv' h' Hrun.
    destruct (allocate_returns name m disp cv h d' cv' h') as (h1 & Hrun1 & _ & Harr & Hds);
      [by intros d ?%Hdisp%lookup_lt_is_Some | done |].
    destruct (grow_inv _ _ _ _ _ _ _ _ _ _ _ _ _ Hrun1 Hcv Hcm Ha Hsh)
      as (rc' & labels & a' & Hb' & Hlab & Hlayer & Hsha & Hdta & Hget).
    rewrite Hb in Hb'. injection Hb' as <-.
    rewrite (old_labels_coordinate _ _ _ _ Hind Hlab), append_strings in Hlayer.
    exists (length (arrays h)), a'.
    split; [by eapply confidence_layer_preserved|].
    split; [done|]. split; [done|]. split.
    + intros r c k Hr Hc Hk. rewrite Hget by lia.
      replace (k <? K) with true by (symmetry; apply Nat.ltb_lt; lia).
      by rewrite Hdt, cast_same.
    + intros r c Hr Hc. rewrite Hget by lia.
      by rewrite Nat.ltb_irrefl, Hdtm, cast_same, bget_exact.
Qed.

(** The second merge of the worked example: ["risk"] into the cost volume
    that holds ["ambiguity"]. *)
Lemma grow_preserves_prior_slices_witness :
  (∃ cv' h',
     allocate_confidence_map "risk" risk_map None 2 store1 = (inr (None, cv'), h')) ∧
  ∀ d' cv' h',
    allocate_confidence_map "risk" risk_map (Some 1) 2 store1 = (inr (d', cv'), h') →
    ∃ l' a',
      confidence_layer h' cv' l' a' (LStr <$> ["ambiguity"] ++ ["risk"]) ∧
      np.shape a' = [2; 2; 1 + 1] ∧ np.nd_dtype a' = np.float32 ∧
      (∀ r c k, r < 2 → c < 2 → k < 1 →
         np.get3 a' r c k = np.get3 ambiguity_layer r c k) ∧
      (∀ r c, r < 2 → c < 2 → np.get3 a' r c 1 = np.get2 risk_map r c).
Proof.
  apply (grow_preserves_prior_slices "risk" risk_map (Some 1) 2 store1
           (datasets store1 !!! 2) 2 ambiguity_layer ["ambiguity"] 2 2 1).
  - reflexivity.
  - apply wf_dataset_check; check.
  - split; eexists; (split; [reflexivity|]); split; reflexivity.
  - reflexivity.
  - reflexivity.
  - reflexivity.
  - reflexivity.
  - intros d [= <-]. by eexists.
Defined.

(** ** A dataset without layer gets its first slice *)

Lemma alloc_inv name m x h x' h1 vars :
  update_cost_volume name m x h = (inr x', h1) →
  datasets h !! x = Some vars →
  xr.in_data_vars "confidence_measure" vars = false →
  alloc_post h vars name m x' h1.
Proof.
  intros Hrun Hx Hin.
  pose proof (list_lookup_total_correct _ _ _ Hx) as Hv.
  destruct (wp_run _ _ _ _ _ (update_cost_volume_alloc name m x h vars Hv Hin) Hrun)
    as [_ Hpost].
  by apply Hpost.
Qed.

Lemma fits_no_indicator h (vars : Dataset) R C :
  ¬ xr.has_dim vars "indicator" →
  xr.fits h vars [("row", R); ("col", C)] →
  xr.fits h (delete "indicator" vars) [("row", R); ("col", C); ("indicator", 1)].
Proof.
  intros Hno Hfit. apply fits_delete, fits_spec.
  intros key v d n n' Hkey Hn Hn'. rewrite fits_spec in Hfit.
  apply elem_of_layer_sizes in Hn' as [[-> ->]|[[-> ->]|[-> ->]]].
  - apply (Hfit key v "row" n R); [done..|]. rewrite !elem_of_cons. auto.
  - apply (Hfit key v "col" n C); [done..|]. rewrite !elem_of_cons. auto.
  - destruct Hno. exists key, v. split; [done|]. by eapply sizes_of_dim.
Qed.

(** C2.  When the cost volume has no confidence layer yet (and no indicator
    axis), merging the indicator [name] with a 32-bit float map of the cost
    volume's extents (R, C) returns a cost volume whose layer has shape
    (R, C, 1) and dtype float32, whose single slice is the map, labelled
    [[name]].  The call returns when there is no disparity map, and the cost
    volume is as said whenever it returns. *)
Theorem first_indicator_allocates name m disp cv h vars R C :
  datasets h !! cv = Some vars → live h vars →
  xr.in_data_vars "confidence_measure" vars = false →
  ¬ xr.has_dim vars "indicator" →
  xr.fits h vars [("row", R); ("col", C)] →
  np.shape m = [R; C] → np.nd_dtype m = np.float32 →
  (∀ d, disp = Some d → is_Some (datasets h !! d)) →
  (∃ cv' h', allocate_confidence_map name m None cv h = (inr (None, cv'), h')) ∧
  ∀ d' cv' h',
    allocate_confidence_map name m disp cv h = (inr (d', cv'), h') →
    ∃ l' a',
      confidence_layer h' cv' l' a' [LStr name] ∧
      np.shape a' = [R; C; 1] ∧ np.nd_dtype a' = np.float32 ∧
      ∀ r c, r < R → c < C → np.get3 a' r c 0 = np.get2 m r c.
Proof.
  intros Hcv Hlive Hin Hno Hfit Hm Hdtm Hdisp.
  pose proof (list_lookup_total_correct _ _ _ Hcv) as Hv.
  split.
  - destruct (update_cost_volume_alloc_ok name m cv h vars R C)
      as (cv' & h1 & Hrun); [done..|by apply fits_no_indicator|done|].
    exists cv', h1. rewrite allocate_confidence_map_unfold, Hrun.
    by rewrite update_disparity_map_none.
  - intros d' cv' h' Hrun.
    destruct (allocate_returns name m disp cv h d' cv' h') as (h1 & Hrun1 & _ & Harr & Hds);
      [by intros d ?%Hdisp%lookup_lt_is_Some | done |].
    destruct (alloc_post_layer _ _ _ _ _ _ (alloc_inv _ _ _ _ _ _ _ Hrun1 Hcv Hin))
      as (R' & C' & a' & Hm' & Hlayer & Hsha & Hdta & Hget).
    rewrite Hm in Hm'. injection Hm' as <- <-.
    exists (length (arrays h)), a'.
    split; [by eapply confidence_layer_preserved|].
    split; [done|]. split; [done|].
    intros r c Hr Hc. rewrite Hget by done. by rewrite Hdtm, cast_same.
Qed.

(** The first merge of the worked example: ["ambiguity"] into the cost volume
    and the disparity map, neither of which has a layer. *)
Lemma first_indicator_allocates_witness :
  (∃ cv' h',
     allocate_confidence_map "ambiguity" ambiguity_map None 0 store0
     = (inr (None, cv'), h')) ∧
  ∀ d' cv' h',
    allocate_confidence_map "ambiguity" ambiguity_map (Some 1) 0 store0
    = (inr (d', cv'), h') →
    ∃ l' a',
      confidence_layer h' cv' l' a' [LStr "ambiguity"] ∧
      np.shape a' = [2; 2; 1] ∧ np.nd_dtype a' = np.float32 ∧
      ∀ r c, r < 2 → c < 2 → np.get3 a' r c 0 = np.get2 ambiguity_map r c.
Proof.
  apply (first_indicator_allocates "ambiguity" ambiguity_map (Some 1) 0 store0
           cost_volume_ds 2 2).
  - reflexivity.
  - apply live_check; check.
  - reflexivity.
  - check.
  - check.
  - reflexivity.
  - reflexivity.
  - intros d [= <-]. by eexists.
Defined.

(** ** Prior slices are copied, NaN included *)

(** C4 as the specification has it does not hold: a prior slice that holds
    NaN is copied with its NaN.  The cost volume of [nan_store] has one indicator, NaN at
    pixel (0, 0); after a merge the layer has NaN at position (0, 0, 0), the
    index of that previously written indicator. *)
Lemma prior_nan_is_copied :
  ∃ cv' h' l a,
    allocate_confidence_map "risk" half_map None 0 nan_store = (inr (None, cv'), h') ∧
    layer_of h' cv' ["row"; "col"; "indicator"] l a ∧
    np.shape a = [1; 1; 2] ∧
    np.is_nan (np.get3 a 0 0 0) = true.
Proof.
  eexists _, _, _, _. split; [vm_compute; reflexivity|].
  split; [eexists; split; [reflexivity|]; split; reflexivity|].
  split; reflexivity.
Qed.

(** C4, amended.  After a merge on a container that had a 32-bit float
    confidence layer of shape (R, C, K), every position (row, col, k) with
    k < K of the new layer holds the value stored there before, so it is NaN
    only where the prior value was NaN: the NaN fill of the growth never
    shows.  This holds for the cost volume and for the disparity map. *)
Theorem prior_slices_are_copied name m disp cv h d' cv' h' :
  (∀ d, disp = Some d → is_Some (datasets h !! d)) →
  allocate_confidence_map name m disp cv h = (inr (d', cv'), h') →
  (∀ dims l a R C K,
     layer_of h cv dims l a → np.shape a = [R; C; K] → np.nd_dtype a = np.float32 →
     ∃ l' a',
       layer_of h' cv' ["row"; "col"; "indicator"] l' a' ∧
       np.shape a' = [R; C; K + 1] ∧
       ∀ r c k, r < R → c < C → k < K →
         np.get3 a' r c k = np.get3 a r c k ∧
         (np.is_nan (np.get3 a' r c k) = true → np.is_nan (np.get3 a r c k) = true)) ∧
  (∀ d dims l a R C K,
     disp = Some d →
     layer_of h d dims l a → np.shape a = [R; C; K] → np.nd_dtype a = np.float32 →
     ∃ d'' l' a',
       d' = Some d'' ∧
       layer_of h' d'' ["row"; "col"; "indicator"] l' a' ∧
       np.shape a' = [R; C; K + 1] ∧
       ∀ r c k, r < R → c < C → k < K →
         np.get3 a' r c k = np.get3 a r c k ∧
         (np.is_nan (np.get3 a' r c k) = true → np.is_nan (np.get3 a r c k) = true)).
Proof.
  intros Hdisp Hrun.
  destruct (allocate_returns name m disp cv h d' cv' h') as (h1 & Hrun1 & Hrun2 & Harr & Hds);
    [by intros d ?%Hdisp%lookup_lt_is_Some | done |].
  assert (Hcopy : ∀ (a a' : np.ndarray) R C K rc',
    np.nd_dtype a = np.float32 →
    (∀ r c k, r < R → c < C → k < K + 1 →
       np.get3 a' r c k =
         if k <? K
         then np.cast (np.nd_dtype a) np.float32 (np.get3 a r c k)
         else np.cast (np.nd_dtype m) np.float32 (np.bget m rc' r c)) →
    ∀ r c k, r < R → c < C → k < K →
      np.get3 a' r c k = np.get3 a r c k ∧
      (np.is_nan (np.get3 a' r c k) = true → np.is_nan (np.get3 a r c k) = true)).
  { intros a a' R C K rc' Hdt Hget r c k Hr Hc Hk.
    assert (np.get3 a' r c k = np.get3 a r c k) as ->; [|done].
    rewrite Hget by lia.
    replace (k <? K) with true by (symmetry; apply Nat.ltb_lt; lia).
    by rewrite Hdt, cast_same. }
  split.
  - intros dims l a R C K (vars & Hcv & Hcm & Ha) Hsh Hdt.
    destruct (grow_inv _ _ _ _ _ _ _ _ _ _ _ _ _ Hrun1 Hcv Hcm Ha Hsh)
      as (rc' & labels & a' & _ & _ & Hlayer & Hsha & _ & Hget).
    exists (length (arrays h)), a'.
    split; [by eapply confidence_layer_preserved|]. split; [done|]. by eapply Hcopy.
  - intros d dims l a R C K -> (vars & Hd & Hcm & Ha) Hsh Hdt.
    destruct (update_cost_volume_post _ _ _ _ _ _ Hrun1) as [[Harr1 Hds1] _].
    assert (Hin : xr.in_data_vars "confidence_measure" (datasets h1 !!! d) = true).
    { rewrite (list_lookup_total_correct _ _ _ (Hds1 _ _ Hd)).
      unfold xr.in_data_vars. by rewrite Hcm. }
    rewrite update_disparity_map_grow in Hrun2 by done.
    destruct (update_cost_volume name m d h1) as [[e|d''] h2] eqn:Hrun3; [done|].
    unfold map_result in Hrun2. simpl in Hrun2. injection Hrun2 as <- <-.
    destruct (grow_inv _ _ _ _ _ _ _ _ _ _ _ _ _ Hrun3 (Hds1 _ _ Hd) Hcm (Harr1 _ _ Ha) Hsh)
      as (rc' & labels & a' & _ & _ & [Hlayer _] & Hsha & _ & Hget).
    exists d'', (length (arrays h1)), a'.
    split; [done|]. split; [done|]. split; [done|]. by eapply Hcopy.
Qed.

(** The second merge of the worked example copies the slice of
    ["ambiguity"], in the cost volume and in the disparity map. *)
Lemma prior_slices_are_copied_witness :
  (∀ dims l a R C K,
     layer_of store1 2 dims l a → np.shape a = [R; C; K] → np.nd_dtype a = np.float32 →
     ∃ l' a',
       layer_of
         (allocate_confidence_map "risk" risk_map (Some 1) 2 store1).2 4
         ["row"; "col"; "indicator"] l' a' ∧
       np.shape a' = [R; C; K + 1] ∧
       ∀ r c k, r < R → c < C → k < K →
         np.get3 a' r c k = np.get3 a r c k ∧
         (np.is_nan (np.get3 a' r c k) = true → np.is_nan (np.get3 a r c k) = true)) ∧
  (∀ d dims l a R C K,
     Some 1 = Some d →
     layer_of store1 d dims l a → np.shape a = [R; C; K] → np.nd_dtype a = np.float32 →
     ∃ d'' l' a',
       Some 6 = Some d'' ∧
       layer_of
         (allocate_confidence_map "risk" risk_map (Some 1) 2 store1).2 d''
         ["row"; "col"; "indicator"] l' a' ∧
       np.shape a' = [R; C; K + 1] ∧
       ∀ r c k, r < R → c < C → k < K →
         np.get3 a' r c k = np.get3 a r c k ∧
         (np.is_nan (np.get3 a' r c k) = true → np.is_nan (np.get3 a r c k) = true)).
Proof.
  apply (prior_slices_are_copied "risk" risk_map (Some 1) 2 store1 (Some 6) 4).
  - intros d [= <-]. by eexists.
  - vm_compute. reflexivity.
Defined.

(** ** The indexes of the cost volume returned *)







(** ** All or nothing *)






(** A 3 x 3 map does not fit the 2 x 2 cost volume: the call raises the
    shape error of the assignment and the caller's two datasets are as they
    were. *)
Example mismatched_map_raises :
  let wrong := np.full [3; 3] (S754_zero false) np.float32 in
  let out := allocate_confidence_map "ambiguity" wrong (Some 1) 0 store0 in
  out.1 = inl ValueError ∧
  datasets out.2 !! 0 = Some cost_volume_ds ∧
  datasets out.2 !! 1 = Some disparity_ds.
Proof. cbv zeta. split; [|split]; vm_compute; reflexivity. Qed.

(** A 1 x 1 map is broadcast over a layer that is there: no error. *)
Example unit_map_is_broadcast :
  let unit_map := np.NdArray np.float32 [1; 1] [f32 8388608 (-24)] in
  let out := allocate_confidence_map "risk" unit_map None 2 store1 in
  out.1 = inr (None, 4) ∧
  ∀ r c, r < 2 → c < 2 → np.get3 (arrays out.2 !!! 3) r c 1 = f32 8388608 (-24).
Proof.
  cbv zeta. split; [vm_compute; reflexivity|].
  intros [|[|r]] [|[|c]] Hr Hc; try lia; vm_compute; reflexivity.
Qed.

(** ** The disparity map without layer shares the cost volume's *)








(** A disparity map with one more row label than the cost volume: the call
    returns, and the layer of the disparity map is a new 3 x 2 x 1 array,
    the map in its first two rows and NaN in the third. *)
Example longer_index_is_padded :
  let out := allocate_confidence_map "ambiguity" ambiguity_map (Some 1) 0 padded_store in
  out.1 = inr (Some 1, 2) ∧
  (datasets out.2 !!! 1) !! "confidence_measure"
  = Some (DataVar ["row"; "col"; "indicator"] 3) ∧
  arrays out.2 !!! 3
  = np.NdArray np.float32 [3; 2; 1]
      [f32 13421773 (-27); f32 13421773 (-26); f32 10066330 (-25); f32 13421773 (-25);
       np.nan; np.nan].
Proof. cbv zeta. split; [|split]; vm_compute; reflexivity. Qed.

(** In the worked example the shared array is object 2 of the store. *)
Example first_merge_shares_array :
  allocate_confidence_map "ambiguity" ambiguity_map (Some 1) 0 store0
  = (inr (Some 1, 2), store1) ∧
  confidence_layer store1 2 2 ambiguity_layer [LStr "ambiguity"] ∧
  confidence_layer store1 1 2 ambiguity_layer [LStr "ambiguity"].
Proof.
  split; [vm_compute; reflexivity|].
  split; (split; eexists; (split; [reflexivity|]); split; reflexivity).
Qed.

(** ** No disparity map *)

(** C7.  With a null disparity map the disparity map returned is null, and
    only the cost volume is updated: the cost volume returned is a new
    object of the store that carries the indicator, and nothing the store
    held before the call has changed. *)
Theorem null_disparity_map_stays_null name m cv h r h' :
  allocate_confidence_map name m None cv h = (r, h') →
  extends h h' ∧
  ∀ d' cv', r = inr (d', cv') →
    d' = None ∧ length (datasets h) ≤ cv' ∧ carries h' cv' name m.
Proof.
  intros Hrun. rewrite allocate_confidence_map_unfold in Hrun.
  destruct (update_cost_volume name m cv h) as [[e|cv1] h1] eqn:Hcv.
  - injection Hrun as <- <-.
    destruct (update_cost_volume_post _ _ _ _ _ _ Hcv) as [Hext _]. by split.
  - rewrite update_disparity_map_none in Hrun.
    unfold map_result in Hrun. simpl in Hrun. injection Hrun as <- <-.
    destruct (update_cost_volume_post _ _ _ _ _ _ Hcv) as [Hext _].
    destruct (update_cost_volume_carries _ _ _ _ _ _ Hcv) as [Hfresh Hcarries].
    split; [done|]. by intros d' cv' [= <- <-].
Qed.

(** The first merge of the worked example, without the disparity map. *)
Lemma null_disparity_map_stays_null_witness :
  extends store0 (allocate_confidence_map "ambiguity" ambiguity_map None 0 store0).2 ∧
  ∀ (d' : option loc) (cv' : loc),
    (inr (None, 2) : exn + (option loc * loc)) = inr (d', cv') →
    d' = None ∧ length (datasets store0) ≤ cv' ∧
    carries (allocate_confidence_map "ambiguity" ambiguity_map None 0 store0).2
      cv' "ambiguity" ambiguity_map.
Proof.
  apply (null_disparity_map_stays_null "ambiguity" ambiguity_map 0 store0
           (inr (None, 2))).
  vm_compute. reflexivity.
Defined.

(** ** The rest of the cost volume *)

(** C10.  Apart from [confidence_measure] and [indicator], the cost volume
    returned has the variables and coordinates of the cost volume passed,
    unchanged: every one it has was there, and every one that was there and
    does not lie along the indicator dimension is still there; the arrays
    they refer to are unchanged too. *)
Theorem other_variables_unchanged name m disp cv h vars d' cv' h' :
  datasets h !! cv = Some vars →
  (∀ d, disp = Some d → is_Some (datasets h !! d)) →
  allocate_confidence_map name m disp cv h = (inr (d', cv'), h') →
  ∃ vars',
    datasets h' !! cv' = Some vars' ∧
    (∀ key v, key ≠ "confidence_measure" → key ≠ "indicator" →
       vars' !! key = Some v → vars !! key = Some v) ∧
    (∀ key v, key ≠ "confidence_measure" → key ≠ "indicator" →
       vars !! key = Some v → "indicator" ∉ xr.dims_of v → vars' !! key = Some v) ∧
    (∀ l a, arrays h !! l = Some a → arrays h' !! l = Some a).
Proof.
  intros Hcv Hdisp Hrun.
  destruct (allocate_returns name m disp cv h d' cv' h') as (h1 & Hrun1 & _ & Harr & Hds);
    [by intros d ?%Hdisp%lookup_lt_is_Some | done |].
  pose proof (list_lookup_total_correct _ _ _ Hcv) as Hv.
  destruct (update_cost_volume_post _ _ _ _ _ _ Hrun1) as [[Harr1 Hds1] Hpost].
  rewrite Hv in Hpost.
  destruct (Hpost cv' eq_refl) as [(dims & l & _ & Hg)|[_ Ha]].
  - destruct Hg as (R & C & K & _ & labels & a' & final & _ & _ & _ & _ & -> & _
                    & -> & Hds' & _).
    eexists. split; [apply Hds; rewrite Hds'; apply lookup_snoc2|].
    split; [|split; [|by eauto]].
    + intros key v Hk1 Hk2. rewrite !lookup_insert_ne by done.
      by intros [? _]%without_indicator_lookup.
    + intros key v Hk1 Hk2 Hkey Hno. rewrite !lookup_insert_ne by done.
      by apply without_indicator_lookup.
  - destruct Ha as (R & C & final & _ & -> & _ & -> & Hds' & _).
    eexists. split; [apply Hds; rewrite Hds'; apply lookup_snoc|].
    split; [|split; [|by eauto]].
    + intros key v Hk1 Hk2. by rewrite !lookup_insert_ne by done.
    + intros key v Hk1 Hk2 Hkey Hno. by rewrite !lookup_insert_ne by done.
Qed.

(** The second merge of the worked example leaves the cost field and the
    coordinates of the cost volume as they were. *)
Lemma other_variables_unchanged_witness :
  ∃ vars',
    datasets (allocate_confidence_map "risk" risk_map (Some 1) 2 store1).2 !! 4
    = Some vars' ∧
    (∀ key v, key ≠ "confidence_measure" → key ≠ "indicator" →
       vars' !! key = Some v → (datasets store1 !!! 2) !! key = Some v) ∧
    (∀ key v, key ≠ "confidence_measure" → key ≠ "indicator" →
       (datasets store1 !!! 2) !! key = Some v → "indicator" ∉ xr.dims_of v →
       vars' !! key = Some v) ∧
    (∀ l a, arrays store1 !! l = Some a →
       arrays (allocate_confidence_map "risk" risk_map (Some 1) 2 store1).2 !! l
       = Some a).
Proof.
  apply (other_variables_unchanged "risk" risk_map (Some 1) 2 store1
           (datasets store1 !!! 2) (Some 6) 4).
  - reflexivity.
  - intros d [= <-]. by eexists.
  - vm_compute. reflexivity.
Defined.

(** * The factory *)

(** A registry holding two plugins, and three configurations. *)
Definition two_plugins : world :=
  World {[ "ambiguity" := Plugin "Ambiguity"; "std_intensity" := Plugin "StdIntensity" ]} [].

Definition nonexistent_cfg : gmap string pyval :=
  {[ "confidence_method" := PyStr "nonexistent" ]}.

Definition integer_cfg : gmap string pyval :=
  {[ "confidence_method" := PyInt 3 ]}.

Definition ambiguity_cfg : gmap string pyval :=
  {[ "confidence_method" := PyStr "ambiguity" ]}.

(** The outcome is the error the specification names. *)
Definition is_ConfigurationError {A} (r : exn + A) : Prop :=
  ∃ message, r = inl (ConfigurationError message).

Lemma error_message_names method :
  ∃ before after, error_message method = before +:+ method +:+ after.
Proof. by exists "No confidence method named ", "upported". Qed.

(** ** An unregistered method *)

(** Asking for ["nonexistent"] does not raise a configuration error: the
    call logs a record and leaves through [sys.exit(1)]. *)
Lemma unknown_method_exits :
  (__new__ AbstractConfidence nonexistent_cfg two_plugins).1 = inl (SystemExit 1) ∧
  terminates_process (SystemExit 1) ∧
  ¬ is_ConfigurationError (__new__ AbstractConfidence nonexistent_cfg two_plugins).1.
Proof.
  split; [reflexivity|]. split; [exact I|]. by intros [message ?].
Qed.

(** C3, as the code has it.  For a configuration whose [confidence_method]
    is a string that names no registered strategy, the construction logs
    one record that contains the requested name and then raises
    [SystemExit] with code 1, which ends the process; the registry is left
    as it was. *)
Theorem unknown_method_logs_and_exits cfg method w :
  cfg !! "confidence_method" = Some (PyStr method) →
  confidence_methods_avail w !! method = None →
  ∃ w',
    __new__ AbstractConfidence cfg w = (inl (SystemExit 1), w') ∧
    terminates_process (SystemExit 1) ∧
    confidence_methods_avail w' = confidence_methods_avail w ∧
    log w' = log w ++ [error_message method] ∧
    ∃ before after, error_message method = before +:+ method +:+ after.
Proof.
  intros Hcfg Hnone. eexists. unfold __new__. rewrite Hcfg, Hnone.
  split; [reflexivity|]. split; [exact I|]. split; [reflexivity|].
  split; [reflexivity|]. apply error_message_names.
Qed.

Lemma unknown_method_logs_and_exits_witness :
  ∃ w',
    __new__ AbstractConfidence nonexistent_cfg two_plugins = (inl (SystemExit 1), w') ∧
    terminates_process (SystemExit 1) ∧
    confidence_methods_avail w' = confidence_methods_avail two_plugins ∧
    log w' = log two_plugins ++ [error_message "nonexistent"] ∧
    ∃ before after, error_message "nonexistent" = before +:+ "nonexistent" +:+ after.
Proof.
  apply (unknown_method_logs_and_exits nonexistent_cfg "nonexistent" two_plugins);
    vm_compute; reflexivity.
Defined.

Example unknown_method_record :
  log (__new__ AbstractConfidence nonexistent_cfg two_plugins).2
  = ["No confidence method named nonexistentupported"].
Proof. reflexivity. Qed.

(** ** Registering twice *)

(** C8.  When two classes are registered one after the other under the same
    short name, both registrations return their class without an error, the
    registry then maps the name to the second class and is otherwise what
    it was, and the factory asked for that name builds an instance of the
    second class. *)
Theorem later_registration_wins short_name first second cfg w :
  cfg !! "confidence_method" = Some (PyStr short_name) →
  ∃ w1 w2,
    register_subclass short_name first w = (inr first, w1) ∧
    register_subclass short_name second w1 = (inr second, w2) ∧
    confidence_methods_avail w2 !! short_name = Some second ∧
    (∀ other, other ≠ short_name →
       confidence_methods_avail w2 !! other = confidence_methods_avail w !! other) ∧
    __new__ AbstractConfidence cfg w2 = (inr (Some (Instance second)), w2).
Proof.
  intros Hcfg. do 2 eexists. split; [reflexivity|]. split; [reflexivity|].
  simpl. split; [by rewrite lookup_insert_eq|]. split.
  - intros other Hother. by rewrite !lookup_insert_ne.
  - by rewrite Hcfg, lookup_insert_eq.
Qed.

Lemma later_registration_wins_witness :
  ∃ w1 w2,
    register_subclass "ambiguity" (Plugin "First") two_plugins = (inr (Plugin "First"), w1) ∧
    register_subclass "ambiguity" (Plugin "Second") w1 = (inr (Plugin "Second"), w2) ∧
    confidence_methods_avail w2 !! "ambiguity" = Some (Plugin "Second") ∧
    (∀ other, other ≠ "ambiguity" →
       confidence_methods_avail w2 !! other
       = confidence_methods_avail two_plugins !! other) ∧
    __new__ AbstractConfidence ambiguity_cfg w2
    = (inr (Some (Instance (Plugin "Second"))), w2).
Proof.
  apply (later_registration_wins "ambiguity" (Plugin "First") (Plugin "Second")
           ambiguity_cfg two_plugins).
  reflexivity.
Defined.

(** ** No method, or a method that is not a string *)

(** With [confidence_method] set to the integer 3 the construction raises
    nothing at all: it returns [None]. *)
Lemma non_string_method_returns_none :
  __new__ AbstractConfidence integer_cfg two_plugins = (inr None, two_plugins) ∧
  ¬ is_ConfigurationError (__new__ AbstractConfidence integer_cfg two_plugins).1.
Proof. split; [reflexivity|]. by intros [message ?]. Qed.

(** C9, as the code has it.  When the configuration has no string under
    [confidence_method], constructing the abstract class raises [KeyError]
    if the key is missing and returns [None], without any error, if the
    value is not a string; either way the registry and the log are left as
    they were, and no instance is built. *)
Theorem no_string_method_builds_nothing cfg w :
  (∀ method, cfg !! "confidence_method" ≠ Some (PyStr method)) →
  __new__ AbstractConfidence cfg w
  = (match cfg !! "confidence_method" with
     | None => inl (KeyError "confidence_method")
     | Some _ => inr None
     end, w) ∧
  ∀ built, (__new__ AbstractConfidence cfg w).1 ≠ inr (Some built).
Proof.
  intros Hcfg. unfold __new__.
  destruct (cfg !! "confidence_method") as [[method| | |]|]; try by split.
  by destruct (Hcfg method).
Qed.

Lemma no_string_method_builds_nothing_witness :
  __new__ AbstractConfidence integer_cfg two_plugins
  = (match integer_cfg !! "confidence_method" with
     | None => inl (KeyError "confidence_method")
     | Some _ => inr None
     end, two_plugins) ∧
  ∀ built, (__new__ AbstractConfidence integer_cfg two_plugins).1 ≠ inr (Some built).
Proof.
  apply (no_string_method_builds_nothing integer_cfg two_plugins).
  intros method. vm_compute. discriminate.
Defined.

Example missing_method_raises_KeyError :
  __new__ AbstractConfidence ∅ two_plugins
  = (inl (KeyError "confidence_method"), two_plugins).
Proof. reflexivity. Qed.

(** A plugin class constructed directly does not look at the
    configuration. *)
Example plugin_constructs_itself name cfg w :
  __new__ (Plugin name) cfg w = (inr (Some (Instance (Plugin name))), w).
Proof. reflexivity. Qed.

(** * Further properties of the module *)

(** ** The factory and the registry *)

(** X1.  The factory returns an instance of class [c] exactly when it is
    called on the plugin class [c] itself, or on the abstract class with a
    configuration whose [confidence_method] is a string under which [c] is
    registered; the registry and the log are then as they were. *)
Theorem factory_builds_registered_class cls cfg w c w' :
  __new__ cls cfg w = (inr (Some (Instance c)), w') ↔
  w' = w ∧
  ((∃ name, cls = Plugin name ∧ c = cls) ∨
   (cls = AbstractConfidence ∧
    ∃ method, cfg !! "confidence_method" = Some (PyStr method) ∧
              confidence_methods_avail w !! method = Some c)).
Proof.
  unfold __new__. split.
  - destruct cls as [|name].
    + destruct (cfg !! "confidence_method") as [[method| | |]|] eqn:Hcfg; try done.
      destruct (confidence_methods_avail w !! method) as [sub|] eqn:Hreg; [|done].
      intros [= <- <-]. split; [done|]. right. split; [done|]. by exists method.
    + intros [= <- <-]. split; [done|]. left. by exists name.
  - intros [-> [(name & -> & ->)|(-> & method & Hcfg & Hreg)]]; [done|].
    by rewrite Hcfg, Hreg.
Qed.

(** X2.  Whatever the class and the configuration, a construction never
    changes the registry; it raises nothing but [KeyError] on the key
    [confidence_method] and [SystemExit] with code 1; and it writes to the
    log only when it leaves through [SystemExit]. *)
Theorem factory_failure_modes cls cfg w :
  confidence_methods_avail (__new__ cls cfg w).2 = confidence_methods_avail w ∧
  (∀ e, (__new__ cls cfg w).1 = inl e →
     e = KeyError "confidence_method" ∨ e = SystemExit 1) ∧
  ((__new__ cls cfg w).1 = inl (SystemExit 1) ∨ (__new__ cls cfg w).2 = w).
Proof.
  unfold __new__. destruct cls as [|name].
  2:{ split; [done|]. split; [done | by right]. }
  destruct (cfg !! "confidence_method") as [[method| | |]|]; simpl.
  - destruct (confidence_methods_avail w !! method); simpl.
    + split; [done|]. split; [done | by right].
    + split; [done|]. split; [intros e [= <-]; by right | by left].
  - split; [done|]. split; [done | by right].
  - split; [done|]. split; [done | by right].
  - split; [done|]. split; [done | by right].
  - split; [done|]. split; [intros e [= <-]; by left | by right].
Qed.

(** X3.  Registrations under two different names commute: the registry is
    the same whichever comes first. *)
Theorem registrations_commute n1 c1 n2 c2 w :
  n1 ≠ n2 →
  (register_subclass n2 c2 (register_subclass n1 c1 w).2).2
  = (register_subclass n1 c1 (register_subclass n2 c2 w).2).2.
Proof.
  intros Hne. unfold register_subclass. simpl. f_equal.
  by apply insert_insert_ne.
Qed.

(** Two plugins, registered in either order into an empty registry. *)
Lemma registrations_commute_witness :
  (register_subclass "risk" (Plugin "Risk")
     (register_subclass "ambiguity" (Plugin "Ambiguity") (World ∅ [])).2).2
  = (register_subclass "ambiguity" (Plugin "Ambiguity")
       (register_subclass "risk" (Plugin "Risk") (World ∅ [])).2).2.
Proof.
  apply (registrations_commute "ambiguity" (Plugin "Ambiguity") "risk" (Plugin "Risk")).
  done.
Defined.

(** X4.  Registering a class under a name changes nothing for the other
    method names: the factory, asked for any method but that one (or called
    on a plugin class), has the same outcome and logs the same records as
    before the registration. *)
Theorem registration_leaves_other_methods short_name subclass cls cfg w :
  cfg !! "confidence_method" ≠ Some (PyStr short_name) →
  (__new__ cls cfg (register_subclass short_name subclass w).2).1 = (__new__ cls cfg w).1 ∧
  log (__new__ cls cfg (register_subclass short_name subclass w).2).2
  = log (__new__ cls cfg w).2.
Proof.
  intros Hcfg. unfold __new__, register_subclass. destruct cls as [|name]; [|done].
  destruct (cfg !! "confidence_method") as [[method| | |]|]; try done.
  simpl. rewrite lookup_insert_ne by congruence.
  by destruct (confidence_methods_avail w !! method).
Qed.

(** Registering ["risk"] does not change what ["ambiguity"] builds. *)
Lemma registration_leaves_other_methods_witness :
  (__new__ AbstractConfidence ambiguity_cfg
     (register_subclass "risk" (Plugin "Risk") two_plugins).2).1
  = (__new__ AbstractConfidence ambiguity_cfg two_plugins).1 ∧
  log (__new__ AbstractConfidence ambiguity_cfg
         (register_subclass "risk" (Plugin "Risk") two_plugins).2).2
  = log (__new__ AbstractConfidence ambiguity_cfg two_plugins).2.
Proof.
  apply (registration_leaves_other_methods "risk" (Plugin "Risk") AbstractConfidence
           ambiguity_cfg two_plugins).
  vm_compute. discriminate.
Defined.

(** X5.  A method that makes the factory exit is accepted once a class has
    been registered under its name: registration repairs exactly the
    failure of an unknown method. *)
Theorem registration_repairs_unknown_method method subclass cfg w :
  cfg !! "confidence_method" = Some (PyStr method) →
  confidence_methods_avail w !! method = None →
  (__new__ AbstractConfidence cfg w).1 = inl (SystemExit 1) ∧
  ∃ w1, register_subclass method subclass w = (inr subclass, w1) ∧
        __new__ AbstractConfidence cfg w1 = (inr (Some (Instance subclass)), w1).
Proof.
  intros Hcfg Hnone. unfold __new__. rewrite Hcfg, Hnone. split; [done|].
  eexists. split; [reflexivity|]. simpl. by rewrite lookup_insert_eq.
Qed.

(** The method ["nonexistent"], before and after a class is registered
    under it. *)
Lemma registration_repairs_unknown_method_witness :
  (__new__ AbstractConfidence nonexistent_cfg two_plugins).1 = inl (SystemExit 1) ∧
  ∃ w1, register_subclass "nonexistent" (Plugin "Late") two_plugins
        = (inr (Plugin "Late"), w1) ∧
        __new__ AbstractConfidence nonexistent_cfg w1
        = (inr (Some (Instance (Plugin "Late"))), w1).
Proof.
  apply (registration_repairs_unknown_method "nonexistent" (Plugin "Late")
           nonexistent_cfg two_plugins); reflexivity.
Defined.

(** ** The cost volume returned *)

Lemma fits_indicator_count h (ds : Dataset) labels R C K :
  ds !! "indicator" = Some (Coordinate "indicator" labels) →
  xr.fits h (delete "confidence_measure" ds)
          [("row", R); ("col", C); ("indicator", K)] →
  length labels = K.
Proof.
  intros Hind Hfit. rewrite fits_spec in Hfit. symmetry.
  apply (Hfit "indicator" (Coordinate "indicator" labels) "indicator").
  - by rewrite lookup_delete_ne.
  - apply list_elem_of_singleton. done.
  - apply elem_of_layer_sizes. auto.
Qed.

(** The cost volume a call returns, in the store the call leaves. *)
Lemma returned_cost_volume name m disp cv h d' cv' h' :
  (∀ d, disp = Some d → is_Some (datasets h !! d)) →
  allocate_confidence_map name m disp cv h = (inr (d', cv'), h') →
  ∃ h1 base labels R C K a,
    update_cost_volume name m cv h = (inr cv', h1) ∧
    extends h h1 ∧ base ⊆ datasets h !!! cv ∧
    (∀ l a, arrays h1 !! l = Some a → arrays h' !! l = Some a) ∧
    datasets h1 !! cv' =
      Some (<["confidence_measure" := DataVar ["row"; "col"; "indicator"] (length (arrays h))]>
              (<["indicator" := Coordinate "indicator" labels]> base)) ∧
    datasets h' !! cv' = datasets h1 !! cv' ∧
    arrays h1 !! length (arrays h) = Some a ∧ np.shape a = [R; C; K] ∧
    xr.fits h1 (delete "confidence_measure" (<["indicator" := Coordinate "indicator" labels]> base))
            [("row", R); ("col", C); ("indicator", K)].
Proof.
  intros Hdisp Hrun.
  destruct (allocate_returns name m disp cv h d' cv' h') as (h1 & Hrun1 & _ & Harr & Hds);
    [by intros d ?%Hdisp%lookup_lt_is_Some | done |].
  destruct (update_cost_volume_post _ _ _ _ _ _ Hrun1) as [Hext Hpost].
  exists h1.
  destruct (Hpost cv' eq_refl) as [(dims & l & _ & Hg)|[_ Ha]].
  - destruct Hg as (R & C & K & rc' & labels & a' & final & _ & _ & _ & _ & -> & Harr1
                    & -> & Hds1 & Hfit & Hsh & _).
    exists (without_indicator (datasets h !!! cv)), (np.append labels name), R, C, (K + 1), a'.
    assert (Hcv' : datasets h1 !! S (length (datasets h)) = Some
      (<["confidence_measure" := DataVar ["row"; "col"; "indicator"] (length (arrays h))]>
         (<["indicator" := Coordinate "indicator" (np.append labels name)]>
            (without_indicator (datasets h !!! cv))))).
    { rewrite Hds1. apply lookup_snoc2. }
    split; [done|]. split; [done|]. split; [apply map_filter_subseteq|].
    split; [done|]. split; [done|]. split; [by rewrite (Hds _ Hcv')|].
    split; [rewrite Harr1; apply lookup_snoc|]. split; [done|].
    by rewrite delete_insert_eq in Hfit.
  - destruct Ha as (R & C & final & Hm & -> & Harr1 & -> & Hds1 & Hfit).
    exists (datasets h !!! cv), [LStr name], R, C, 1. eexists.
    assert (Hcv' : datasets h1 !! length (datasets h) = Some
      (<["confidence_measure" := DataVar ["row"; "col"; "indicator"] (length (arrays h))]>
         (<["indicator" := Coordinate "indicator" [LStr name]]> (datasets h !!! cv)))).
    { rewrite Hds1. apply lookup_snoc. }
    split; [done|]. split; [done|]. split; [done|].
    split; [done|]. split; [done|]. split; [by rewrite (Hds _ Hcv')|].
    split; [rewrite Harr1; apply lookup_snoc|]. split; [done|].
    by rewrite delete_insert_eq in Hfit.
Qed.

(** X6.  In the cost volume a call returns, the confidence layer has as
    many slices as the indicator coordinate has labels, whatever the cost
    volume passed. *)
Theorem labels_count_slices name m disp cv h d' cv' h' :
  (∀ d, disp = Some d → is_Some (datasets h !! d)) →
  allocate_confidence_map name m disp cv h = (inr (d', cv'), h') →
  ∃ l a labels R C K,
    confidence_layer h' cv' l a labels ∧
    np.shape a = [R; C; K] ∧ length labels = K.
Proof.
  intros Hdisp Hrun.
  destruct (returned_cost_volume _ _ _ _ _ _ _ _ Hdisp Hrun)
    as (h1 & base & labels & R & C & K & a & _ & _ & _ & Harr & Hcv1 & Hcv' & Ha & Hsh & Hfit).
  exists (length (arrays h)), a, labels, R, C, K.
  rewrite Hcv1 in Hcv'.
  split; [|split; [done|]].
  - split; eexists; (split; [exact Hcv'|]).
    + split; [by rewrite lookup_insert_eq | by apply Harr].
    + by rewrite lookup_insert_ne, lookup_insert_eq.
  - eapply fits_indicator_count; [|exact Hfit]. by rewrite lookup_insert_eq.
Qed.

(** The second merge of the worked example. *)
Lemma labels_count_slices_witness :
  ∃ l a labels R C K,
    confidence_layer (allocate_confidence_map "risk" risk_map (Some 1) 2 store1).2
      4 l a labels ∧
    np.shape a = [R; C; K] ∧ length labels = K.
Proof.
  apply (labels_count_slices "risk" risk_map (Some 1) 2 store1 (Some 6) 4).
  - intros d [= <-]. by eexists.
  - vm_compute. reflexivity.
Defined.

(** ** Well-formed datasets stay well-formed *)

Lemma sizes_of_preserved h h' (ds : Dataset) key v :
  (∀ l a, arrays h !! l = Some a → arrays h' !! l = Some a) →
  live h ds → ds !! key = Some v →
  xr.sizes_of h' v = xr.sizes_of h v.
Proof.
  intros Harr Hlive Hkey. destruct v as [dims l|d labels]; [|done].
  destruct (Hlive _ _ _ Hkey) as [a Ha].
  unfold xr.sizes_of, xr.shape_of.
  by rewrite (list_lookup_total_correct _ _ _ Ha),
             (list_lookup_total_correct _ _ _ (Harr _ _ Ha)).
Qed.

Lemma wf_dataset_preserved h h' (ds : Dataset) :
  (∀ l a, arrays h !! l = Some a → arrays h' !! l = Some a) →
  wf_dataset h ds → wf_dataset h' ds.
Proof.
  intros Harr [Hlive Hcons]. split.
  - intros key dims l Hkey. destruct (Hlive _ _ _ Hkey) as [a Ha]. eauto.
  - intros k1 v1 k2 v2 d n1 n2 H1 H2.
    rewrite (sizes_of_preserved h h' ds k1 v1), (sizes_of_preserved h h' ds k2 v2) by done.
    by apply (Hcons k1 v1 k2 v2).
Qed.

Lemma layer_sizes_functional (d : string) (n1 n2 R C K : nat) :
  (d, n1) ∈ [("row", R); ("col", C); ("indicator", K)] →
  (d, n2) ∈ [("row", R); ("col", C); ("indicator", K)] → n1 = n2.
Proof.
  intros [[-> ->]|[[-> ->]|[-> ->]]]%elem_of_layer_sizes
         [[? ->]|[[? ->]|[? ->]]]%elem_of_layer_sizes; done.
Qed.

(** A dataset with a layer over (row, col, indicator) and the coordinate of
    its indicators, built on variables of a well-formed dataset. *)
Lemma layer_insert_wf h h' (vars base : Dataset) labels L a R C K :
  (∀ l a, arrays h !! l = Some a → arrays h' !! l = Some a) →
  wf_dataset h vars → base ⊆ vars →
  arrays h' !! L = Some a → np.shape a = [R; C; K] →
  xr.fits h' (delete "confidence_measure" (<["indicator" := Coordinate "indicator" labels]> base))
          [("row", R); ("col", C); ("indicator", K)] →
  wf_dataset h'
    (<["confidence_measure" := DataVar ["row"; "col"; "indicator"] L]>
       (<["indicator" := Coordinate "indicator" labels]> base)).
Proof.
  intros Harr [Hlive Hcons] Hsub Ha Hsh Hfit.
  set (rest := <["indicator" := Coordinate "indicator" labels]> base) in *.
  assert (HL : xr.sizes_of h' (DataVar ["row"; "col"; "indicator"] L)
               = [("row", R); ("col", C); ("indicator", K)]).
  { unfold xr.sizes_of, xr.shape_of.
    by rewrite (list_lookup_total_correct _ _ _ Ha), Hsh. }
  assert (Hrest : ∀ k v, k ≠ "confidence_measure" → rest !! k = Some v →
            (k = "indicator" ∧ v = Coordinate "indicator" labels) ∨
            (k ≠ "indicator" ∧ vars !! k = Some v)).
  { intros k v Hk. unfold rest. destruct (decide (k = "indicator")) as [->|Hki].
    - rewrite lookup_insert_eq. intros [= <-]. by left.
    - rewrite lookup_insert_ne by done. intros Hb. right. split; [done|].
      by eapply lookup_weaken. }
  rewrite fits_spec in Hfit.
  split.
  - intros key dims l. destruct (decide (key = "confidence_measure")) as [->|Hk].
    + rewrite lookup_insert_eq. intros [= <- <-]. by eexists.
    + rewrite lookup_insert_ne by done. intros Hkey.
      destruct (Hrest _ _ Hk Hkey) as [[_ ?]|[_ Hv]]; [done|].
      destruct (Hlive _ _ _ Hv) as [a0 Ha0]. eauto.
  - assert (Hside : ∀ k v d n n', k ≠ "confidence_measure" → rest !! k = Some v →
              (d, n) ∈ xr.sizes_of h' v →
              (d, n') ∈ [("row", R); ("col", C); ("indicator", K)] → n' = n).
    { intros k v d n n' Hk Hkey Hn Hn'.
      apply (Hfit k v d n n'); [by rewrite lookup_delete_ne|done..]. }
    intros k1 v1 k2 v2 d n1 n2.
    destruct (decide (k1 = "confidence_measure")) as [->|Hk1];
      destruct (decide (k2 = "confidence_measure")) as [->|Hk2];
      rewrite ?lookup_insert_eq, ?lookup_insert_ne by done.
    + intros [= <-] [= <-]. rewrite HL. apply layer_sizes_functional.
    + intros [= <-] H2. rewrite HL. intros Hn1 Hn2. by eapply Hside.
    + intros H1 [= <-]. rewrite HL. intros Hn1 Hn2. symmetry. by eapply Hside.
    + intros H1 H2 Hn1 Hn2.
      destruct (Hrest _ _ Hk1 H1) as [[-> ->]|[Hi1 Hv1]];
        destruct (Hrest _ _ Hk2 H2) as [[-> ->]|[Hi2 Hv2]].
      * apply list_elem_of_singleton in Hn1, Hn2. congruence.
      * apply list_elem_of_singleton in Hn1 as [= -> ->].
        transitivity K.
        -- symmetry. apply (Hside "indicator" (Coordinate "indicator" labels) "indicator");
             [done|done|by apply list_elem_of_singleton|apply elem_of_layer_sizes; auto].
        -- apply (Hside k2 v2 "indicator"); [done..|apply elem_of_layer_sizes; auto].
      * apply list_elem_of_singleton in Hn2 as [= -> ->].
        transitivity K.
        -- symmetry. apply (Hside k1 v1 "indicator"); [done..|apply elem_of_layer_sizes; auto].
        -- apply (Hside "indicator" (Coordinate "indicator" labels) "indicator");
             [done|done|by apply list_elem_of_singleton|apply elem_of_layer_sizes; auto].
      * rewrite (sizes_of_preserved h h' vars k1 v1) in Hn1 by done.
        rewrite (sizes_of_preserved h h' vars k2 v2) in Hn2 by done.
        exact (Hcons k1 v1 k2 v2 d n1 n2 Hv1 Hv2 Hn1 Hn2).
Qed.

(** X7.  A well-formed cost volume gives a well-formed cost volume: in the
    one returned every data variable refers to an array of the store and
    every dimension has one extent throughout, the new layer included. *)
Theorem returned_cost_volume_is_well_formed name m disp cv h vars d' cv' h' :
  datasets h !! cv = Some vars → wf_dataset h vars →
  (∀ d, disp = Some d → is_Some (datasets h !! d)) →
  allocate_confidence_map name m disp cv h = (inr (d', cv'), h') →
  ∃ vars', datasets h' !! cv' = Some vars' ∧ wf_dataset h' vars'.
Proof.
  intros Hcv Hwf Hdisp Hrun.
  destruct (returned_cost_volume _ _ _ _ _ _ _ _ Hdisp Hrun)
    as (h1 & base & labels & R & C & K & a & _ & [Hext _] & Hsub & Harr & Hcv1 & Hcv'
        & Ha & Hsh & Hfit).
  rewrite (list_lookup_total_correct _ _ _ Hcv) in Hsub.
  eexists. split; [by rewrite Hcv'|].
  apply (wf_dataset_preserved h1 h'); [done|].
  by apply (layer_insert_wf h h1 vars base labels _ a R C K).
Qed.

(** The second merge of the worked example. *)
Lemma returned_cost_volume_is_well_formed_witness :
  ∃ vars',
    datasets (allocate_confidence_map "risk" risk_map (Some 1) 2 store1).2 !! 4
    = Some vars' ∧
    wf_dataset (allocate_confidence_map "risk" risk_map (Some 1) 2 store1).2 vars'.
Proof.
  apply (returned_cost_volume_is_well_formed "risk" risk_map (Some 1) 2 store1
           (datasets store1 !!! 2) (Some 6) 4).
  - reflexivity.
  - apply wf_dataset_check; check.
  - intros d [= <-]. by eexists.
  - vm_compute. reflexivity.
Defined.

(** ** Two merges in a row *)

Lemma allocate_without_disparity_map name m cv h cv' h' :
  update_cost_volume name m cv h = (inr cv', h') →
  allocate_confidence_map name m None cv h = (inr (None, cv'), h').
Proof.
  intros Hrun. by rewrite allocate_confidence_map_unfold, Hrun, update_disparity_map_none.
Qed.

(** X8.  Merging [n1] and then [n2] into a cost volume without layer, each
    time into the cost volume the previous call returned, gives a layer of
    shape (R, C, 2) whose slices are the two maps in the order of the calls,
    labelled [[n1; n2]]; the names need not differ.  Both calls return. *)
Theorem two_merges_compose n1 m1 n2 m2 cv h vars R C :
  datasets h !! cv = Some vars → wf_dataset h vars →
  xr.in_data_vars "confidence_measure" vars = false →
  ¬ xr.has_dim vars "indicator" →
  xr.fits h vars [("row", R); ("col", C)] →
  np.shape m1 = [R; C] → np.nd_dtype m1 = np.float32 →
  np.shape m2 = [R; C] → np.nd_dtype m2 = np.float32 →
  ∃ cv1 h1 cv2 h2 l a,
    allocate_confidence_map n1 m1 None cv h = (inr (None, cv1), h1) ∧
    allocate_confidence_map n2 m2 None cv1 h1 = (inr (None, cv2), h2) ∧
    confidence_layer h2 cv2 l a [LStr n1; LStr n2] ∧
    np.shape a = [R; C; 2] ∧ np.nd_dtype a = np.float32 ∧
    ∀ r c, r < R → c < C →
      np.get3 a r c 0 = np.get2 m1 r c ∧ np.get3 a r c 1 = np.get2 m2 r c.
Proof.
  intros Hcv Hwf Hin Hno Hfit Hm1 Hdt1 Hm2 Hdt2.
  pose proof (list_lookup_total_correct _ _ _ Hcv) as Hv.
  destruct (update_cost_volume_alloc_ok n1 m1 cv h vars R C)
    as (cv1 & h1 & Hrun1); [done|by destruct Hwf|done|by apply fits_no_indicator|done|].
  destruct (update_cost_volume_post _ _ _ _ _ _ Hrun1) as [[Hext _] _].
  pose proof (alloc_inv _ _ _ _ _ _ _ Hrun1 Hcv Hin) as Hpost.
  destruct (alloc_post_layer _ _ _ _ _ _ Hpost)
    as (R' & C' & a1 & Hm' & [(final & Hds1 & Hcm1 & Ha1) (final' & Hds1' & Hind1)]
        & Hsh1 & Hdta1 & Hget1).
  rewrite Hm1 in Hm'. injection Hm' as <- <-.
  assert (final' = final) as -> by congruence.
  destruct Hpost as (R' & C' & final' & Hm' & Hcv1 & _ & Hfinal & Hds1'' & Hfit1).
  rewrite Hm1 in Hm'. injection Hm' as <- <-.
  assert (final' = final) as ->.
  { rewrite Hds1'', Hcv1, lookup_snoc in Hds1. congruence. }
  assert (Hwf1 : wf_dataset h1 final).
  { rewrite Hfinal. apply (layer_insert_wf h h1 vars vars _ _ a1 R C 1); try done.
    rewrite Hfinal, delete_insert_eq in Hfit1. exact Hfit1. }
  pose proof (list_lookup_total_correct _ _ _ Hds1) as Hv1.
  destruct (update_cost_volume_grow_ok n2 m2 cv1 h1 final (length (arrays h)) R C 1 (R, C)
              [LStr n1]) as (cv2 & h2 & Hrun2); try done.
  { by rewrite (list_lookup_total_correct _ _ _ Ha1). }
  { rewrite Hm2. apply broadcast2_exact. }
  destruct (grow_inv _ _ _ _ _ _ _ _ _ _ _ _ _ Hrun2 Hds1 Hcm1 Ha1 Hsh1)
    as (rc' & labels & a2 & Hb & Hlab & Hlayer & Hsh2 & Hdt2' & Hget2).
  rewrite Hm2, broadcast2_exact in Hb. injection Hb as <-.
  rewrite (old_labels_coordinate _ _ _ _ Hind1 Hlab) in Hlayer.
  exists cv1, h1, cv2, h2, (length (arrays h1)), a2.
  split; [by apply allocate_without_disparity_map|].
  split; [by apply allocate_without_disparity_map|].
  split; [done|]. split; [done|]. split; [done|].
  intros r c Hr Hc. split.
  - rewrite Hget2 by lia. change (0 <? 1) with true. cbv iota.
    rewrite Hdta1, cast_same, Hget1 by done. by rewrite Hdt1, cast_same.
  - rewrite Hget2 by lia. by rewrite Nat.ltb_irrefl, Hdt2, cast_same, bget_exact.
Qed.

(** The two merges of the worked example. *)
Lemma two_merges_compose_witness :
  ∃ cv1 h1 cv2 h2 l a,
    allocate_confidence_map "ambiguity" ambiguity_map None 0 store0
    = (inr (None, cv1), h1) ∧
    allocate_confidence_map "risk" risk_map None cv1 h1 = (inr (None, cv2), h2) ∧
    confidence_layer h2 cv2 l a [LStr "ambiguity"; LStr "risk"] ∧
    np.shape a = [2; 2; 2] ∧ np.nd_dtype a = np.float32 ∧
    ∀ r c, r < 2 → c < 2 →
      np.get3 a r c 0 = np.get2 ambiguity_map r c ∧
      np.get3 a r c 1 = np.get2 risk_map r c.
Proof.
  apply (two_merges_compose "ambiguity" ambiguity_map "risk" risk_map 0 store0
           cost_volume_ds 2 2).
  - reflexivity.
  - apply wf_dataset_check; check.
  - reflexivity.
  - check.
  - check.
  - reflexivity.
  - reflexivity.
  - reflexivity.
  - reflexivity.
Defined.

(** ** What is rebuilt and what is updated in place *)

Lemma carries_layer h x name m :
  carries h x name m →
  ∃ l, (datasets h !!! x) !! "confidence_measure"
       = Some (DataVar ["row"; "col"; "indicator"] l).
Proof.
  intros (l & a & labels & R & C & K & rc' & [(vars & Hx & Hcm & _) _] & _).
  exists l. by rewrite (list_lookup_total_correct _ _ _ Hx).
Qed.

Lemma preserved_length {A} (l1 l2 : list A) :
  (∀ i x, l1 !! i = Some x → l2 !! i = Some x) → length l1 ≤ length l2.
Proof.
  intros Hpre. destruct (decide (length l1 ≤ length l2)) as [|Hlt]; [done|].
  destruct (lookup_lt_is_Some_2 l1 (length l2)) as [x Hx]; [lia|].
  apply Hpre, lookup_lt_Some in Hx. lia.
Qed.

(** X9.  The cost volume the caller passes is never modified: the dataset
    it names is the same after the call, whether the call returns or
    raises, and the cost volume returned is another object.  (The disparity
    map is taken to be another object than the cost volume.) *)
Theorem caller_cost_volume_is_kept name m disp cv h vars r h' :
  datasets h !! cv = Some vars → disp ≠ Some cv →
  allocate_confidence_map name m disp cv h = (r, h') →
  datasets h' !! cv = Some vars ∧
  ∀ d' cv', r = inr (d', cv') → cv' ≠ cv.
Proof.
  intros Hcv Hne Hrun. rewrite allocate_confidence_map_unfold in Hrun.
  destruct (update_cost_volume name m cv h) as [[e|cv1] h1] eqn:Hrun1.
  { injection Hrun as <- <-.
    destruct (update_cost_volume_post _ _ _ _ _ _ Hrun1) as [[_ Hds] _]. by auto. }
  destruct (update_cost_volume_post _ _ _ _ _ _ Hrun1) as [[_ Hds1] _].
  destruct (update_cost_volume_carries _ _ _ _ _ _ Hrun1) as [Hfresh Hcarries].
  pose proof (lookup_lt_Some _ _ _ Hcv) as Hlt.
  assert (Hfresh' : ∀ d' cv', r = inr (d', cv') → cv' ≠ cv).
  { intros d' cv' ->. unfold map_result in Hrun.
    destruct (update_disparity_map name m disp cv1 h1) as [[e|d1] h2]; [done|].
    simpl in Hrun. injection Hrun as _ <- _. lia. }
  split; [|done].
  destruct disp as [d|].
  2:{ rewrite update_disparity_map_none in Hrun. unfold map_result in Hrun.
      simpl in Hrun. injection Hrun as _ <-. by auto. }
  destruct (carries_layer _ _ _ _ Hcarries) as [l Hcm].
  destruct (update_disparity_map name m (Some d) cv1 h1) as [r2 h2] eqn:Hrun2.
  unfold map_result in Hrun. simpl in Hrun. injection Hrun as _ <-.
  destruct (update_disparity_map_post _ _ _ _ _ _ _ _ Hcm Hrun2) as (_ & Hds2 & _).
  apply Hds2; [congruence | by auto].
Qed.

(** The first merge of the worked example. *)
Lemma caller_cost_volume_is_kept_witness :
  datasets (allocate_confidence_map "ambiguity" ambiguity_map (Some 1) 0 store0).2 !! 0
  = Some cost_volume_ds ∧
  ∀ d' cv',
    (allocate_confidence_map "ambiguity" ambiguity_map (Some 1) 0 store0).1
    = inr (d', cv') → cv' ≠ 0.
Proof.
  apply (caller_cost_volume_is_kept "ambiguity" ambiguity_map (Some 1) 0 store0
           cost_volume_ds _ _).
  - reflexivity.
  - discriminate.
  - apply surjective_pairing.
Defined.

(** X10.  The disparity map is updated in place exactly when it has no
    confidence layer: the reference returned is then the caller's, and the
    caller's dataset now holds the layer.  A disparity map that has a layer
    is rebuilt: the reference returned names a new object, and the
    caller's dataset is as it was. *)
Theorem disparity_map_in_place_or_rebuilt name m d cv h vars_d d' cv' h' :
  datasets h !! d = Some vars_d →
  allocate_confidence_map name m (Some d) cv h = (inr (d', cv'), h') →
  if xr.in_data_vars "confidence_measure" vars_d
  then ∃ d'', d' = Some d'' ∧ length (datasets h) ≤ d'' ∧
              datasets h' !! d = Some vars_d
  else d' = Some d ∧
       xr.in_data_vars "confidence_measure" (datasets h' !!! d) = true.
Proof.
  intros Hd Hrun. pose proof (lookup_lt_Some _ _ _ Hd) as Hlt.
  destruct (allocate_returns name m (Some d) cv h d' cv' h') as (h1 & Hrun1 & Hrun2 & _);
    [by intros ? [= <-] | done |].
  destruct (update_cost_volume_post _ _ _ _ _ _ Hrun1) as [[_ Hds1] _].
  destruct (update_cost_volume_carries _ _ _ _ _ _ Hrun1) as [_ Hcarries].
  destruct (carries_layer _ _ _ _ Hcarries) as [l Hcm].
  pose proof (Hds1 _ _ Hd) as Hd1.
  pose proof (lookup_lt_Some _ _ _ Hd1) as Hlt1.
  pose proof (list_lookup_total_correct _ _ _ Hd1) as Hvd.
  destruct (update_disparity_map_post _ _ _ _ _ _ _ _ Hcm Hrun2) as (_ & _ & _ & Hok).
  rewrite Hvd in Hok.
  destruct (Hok d' eq_refl)
    as [(dims & l' & d'' & -> & Hl & Hg)|(Hin & -> & v' & Hds2 & Hv')].
  - unfold xr.in_data_vars. rewrite Hl.
    destruct Hg as (? & ? & ? & ? & ? & ? & ? & _ & _ & _ & _ & -> & _ & _ & Hds2 & _).
    pose proof (preserved_length _ _ Hds1).
    exists (S (length (datasets h1))). split; [done|]. split; [lia|].
    rewrite Hds2. by apply lookup_app_l_Some.
  - rewrite Hin. split; [done|].
    rewrite Hds2, list_lookup_total_insert_eq by done.
    unfold xr.in_data_vars. rewrite lookup_insert_eq.
    by destruct Hv' as [[-> _]|(? & ? & ? & _ & -> & _)].
Qed.

(** The first merge of the worked example updates the disparity map, which
    has no layer, in place. *)
Lemma disparity_map_in_place_or_rebuilt_witness :
  if xr.in_data_vars "confidence_measure" disparity_ds
  then ∃ d'', Some 1 = Some d'' ∧ length (datasets store0) ≤ d'' ∧
              datasets store1 !! 1 = Some disparity_ds
  else Some 1 = Some 1 ∧
       xr.in_data_vars "confidence_measure" (datasets store1 !!! 1) = true.
Proof.
  apply (disparity_map_in_place_or_rebuilt "ambiguity" ambiguity_map 1 0 store0
           disparity_ds (Some 1) 2 store1).
  - reflexivity.
  - vm_compute. reflexivity.
Defined.

(** X11.  When the disparity map has a confidence layer of its own, the
    layers of the two datasets returned are held by two different arrays,
    both new to the store: writing to one layer does not show in the other,
    nor in any array the caller had. *)
Theorem grown_layers_are_separate name m d cv h vars_d d' cv' h' :
  datasets h !! d = Some vars_d →
  xr.in_data_vars "confidence_measure" vars_d = true →
  allocate_confidence_map name m (Some d) cv h = (inr (d', cv'), h') →
  ∃ d'' l_cv a_cv l_d a_d,
    d' = Some d'' ∧
    layer_of h' cv' ["row"; "col"; "indicator"] l_cv a_cv ∧
    layer_of h' d'' ["row"; "col"; "indicator"] l_d a_d ∧
    l_cv ≠ l_d ∧ length (arrays h) ≤ l_cv ∧ length (arrays h) ≤ l_d.
Proof.
  intros Hd Hin Hrun. pose proof (lookup_lt_Some _ _ _ Hd) as Hlt.
  destruct (returned_cost_volume name m (Some d) cv h d' cv' h')
    as (h1 & base & labels & R & C & K & a & Hrun1 & [Harr1 Hds1] & _ & Harr & Hcv1 & Hcv'
        & Ha & _); [by intros ? [= <-]; eexists | done |].
  destruct (allocate_returns name m (Some d) cv h d' cv' h') as (h1' & Hrun1' & Hrun2 & _);
    [by intros ? [= <-] | done |].
  assert (h1' = h1) as -> by congruence.
  destruct (update_cost_volume_carries _ _ _ _ _ _ Hrun1) as [_ Hcarries].
  destruct (carries_layer _ _ _ _ Hcarries) as [l Hcm].
  pose proof (list_lookup_total_correct _ _ _ (Hds1 _ _ Hd)) as Hvd.
  destruct (update_disparity_map_post _ _ _ _ _ _ _ _ Hcm Hrun2) as (_ & _ & _ & Hok).
  rewrite Hvd in Hok.
  destruct (Hok d' eq_refl) as [(dims & l' & d'' & -> & Hl & Hg)|(Hin' & _)];
    [|congruence].
  destruct (grow_post_layer _ _ _ _ _ _ _ Hg)
    as (? & ? & ? & ? & ? & a_d & _ & _ & _ & _ & [Hlayer _] & _).
  pose proof (lookup_lt_Some _ _ _ Ha) as Hlen.
  exists d'', (length (arrays h)), a, (length (arrays h1)), a_d.
  split; [done|]. split; [|split; [done|]].
  - eexists. split; [by rewrite Hcv'|].
    split; [by rewrite lookup_insert_eq | by apply Harr].
  - lia.
Qed.

(** The second merge of the worked example: both datasets have a layer. *)
Lemma grown_layers_are_separate_witness :
  ∃ d'' l_cv a_cv l_d a_d,
    Some 6 = Some d'' ∧
    layer_of (allocate_confidence_map "risk" risk_map (Some 1) 2 store1).2 4
      ["row"; "col"; "indicator"] l_cv a_cv ∧
    layer_of (allocate_confidence_map "risk" risk_map (Some 1) 2 store1).2 d''
      ["row"; "col"; "indicator"] l_d a_d ∧
    l_cv ≠ l_d ∧ length (arrays store1) ≤ l_cv ∧ length (arrays store1) ≤ l_d.
Proof.
  apply (grown_layers_are_separate "risk" risk_map 1 2 store1
           (datasets store1 !!! 1) (Some 6) 4).
  - reflexivity.
  - reflexivity.
  - vm_compute. reflexivity.
Defined.

(** ** The disparity map has a layer of its own *)

Lemma map_result_returns {A B} (f : A → B) (p : (exn + A) * heap) y h' :
  map_result f p = (inr y, h') → ∃ x, p = (inr x, h') ∧ y = f x.
Proof.
  destruct p as [[e|x] h1]; unfold map_result; simpl; [done|].
  intros [= <- <-]. by exists x.
Qed.

(** X12.  A disparity map that carries a confidence layer of shape
    (R, C, K) labelled by [names] is returned with a layer of shape
    (R, C, K + 1): the prior slices, then the map, labelled by [names] with
    [name] appended, whatever the layer of the cost volume is.  The call
    returns whenever it does for the cost volume alone. *)
Theorem disparity_map_grows name m d cv h vars_d l a names R C K :
  datasets h !! d = Some vars_d → wf_dataset h vars_d →
  confidence_layer h d l a (LStr <$> names) →
  np.shape a = [R; C; K] → np.nd_dtype a = np.float32 →
  np.shape m = [R; C] → np.nd_dtype m = np.float32 →
  (∀ cv1 h1, allocate_confidence_map name m None cv h = (inr (None, cv1), h1) →
     ∃ d' h', allocate_confidence_map name m (Some d) cv h = (inr (Some d', cv1), h')) ∧
  ∀ d' cv' h',
    allocate_confidence_map name m (Some d) cv h = (inr (d', cv'), h') →
    ∃ d'' l' a',
      d' = Some d'' ∧
      confidence_layer h' d'' l' a' (LStr <$> names ++ [name]) ∧
      np.shape a' = [R; C; K + 1] ∧ np.nd_dtype a' = np.float32 ∧
      (∀ r c k, r < R → c < C → k < K → np.get3 a' r c k = np.get3 a r c k) ∧
      (∀ r c, r < R → c < C → np.get3 a' r c K = np.get2 m r c).
Proof.
  intros Hd Hwf [(vars' & Hd' & Hcm & Ha) (vars'' & Hd'' & Hind)] Hsh Hdt Hm Hdtm.
  assert (vars' = vars_d) as -> by congruence.
  assert (vars'' = vars_d) as -> by congruence.
  pose proof (lookup_lt_Some _ _ _ Hd) as Hlt.
  assert (Hin : xr.in_data_vars "confidence_measure" vars_d = true)
    by (unfold xr.in_data_vars; by rewrite Hcm).
  assert (Hstep : ∀ cv1 h1, update_cost_volume name m cv h = (inr cv1, h1) →
            datasets h1 !! d = Some vars_d ∧ arrays h1 !! l = Some a ∧
            update_disparity_map name m (Some d) cv1 h1
            = map_result Some (update_cost_volume name m d h1)).
  { intros cv1 h1 Hrun1.
    destruct (update_cost_volume_post _ _ _ _ _ _ Hrun1) as [[Harr1 Hds1] _].
    split; [by auto|]. split; [by auto|].
    apply update_disparity_map_grow.
    by rewrite (list_lookup_total_correct _ _ _ (Hds1 _ _ Hd)). }
  split.
  - intros cv1 h1 Hrun. rewrite allocate_confidence_map_unfold in Hrun.
    destruct (update_cost_volume name m cv h) as [[e|cv1'] h1'] eqn:Hrun1; [done|].
    rewrite update_disparity_map_none in Hrun. unfold map_result in Hrun.
    simpl in Hrun. injection Hrun as -> ->.
    destruct (Hstep _ _ eq_refl) as (Hd1 & Ha1 & Heq).
    destruct (update_cost_volume_post _ _ _ _ _ _ Hrun1) as [[Harr1 _] _].
    destruct (update_cost_volume_grow_ok name m d h1 vars_d l R C K (R, C) (LStr <$> names))
      as (d' & h' & Hrun2); try done.
    { by apply list_lookup_total_correct. }
    { by apply (wf_dataset_preserved h h1). }
    { by rewrite (list_lookup_total_correct _ _ _ Ha1). }
    { rewrite Hm. apply broadcast2_exact. }
    exists d', h'. rewrite allocate_confidence_map_unfold, Hrun1, Heq, Hrun2. done.
  - intros d' cv' h' Hrun.
    destruct (allocate_returns name m (Some d) cv h d' cv' h') as (h1 & Hrun1 & Hrun2 & _);
      [by intros ? [= <-] | done |].
    destruct (Hstep _ _ Hrun1) as (Hd1 & Ha1 & Heq).
    rewrite Heq in Hrun2.
    apply map_result_returns in Hrun2 as (d'' & Hrun2 & ->).
    destruct (grow_inv _ _ _ _ _ _ _ _ _ _ _ _ _ Hrun2 Hd1 Hcm Ha1 Hsh)
      as (rc' & labels & a' & Hb & Hlab & Hlayer & Hsha & Hdta & Hget).
    rewrite Hm, broadcast2_exact in Hb. injection Hb as <-.
    rewrite (old_labels_coordinate _ _ _ _ Hind Hlab), append_strings in Hlayer.
    exists d'', (length (arrays h1)), a'.
    split; [done|]. split; [done|]. split; [done|]. split; [done|]. split.
    + intros r c k Hr Hc Hk. rewrite Hget by lia.
      replace (k <? K) with true by (symmetry; apply Nat.ltb_lt; lia).
      by rewrite Hdt, cast_same.
    + intros r c Hr Hc. rewrite Hget by lia.
      by rewrite Nat.ltb_irrefl, Hdtm, cast_same, bget_exact.
Qed.

(** The second merge of the worked example: the disparity map holds
    ["ambiguity"] by then. *)
Lemma disparity_map_grows_witness :
  (∀ cv1 h1,
     allocate_confidence_map "risk" risk_map None 2 store1 = (inr (None, cv1), h1) →
     ∃ d' h',
       allocate_confidence_map "risk" risk_map (Some 1) 2 store1
       = (inr (Some d', cv1), h')) ∧
  ∀ d' cv' h',
    allocate_confidence_map "risk" risk_map (Some 1) 2 store1 = (inr (d', cv'), h') →
    ∃ d'' l' a',
      d' = Some d'' ∧
      confidence_layer h' d'' l' a' (LStr <$> ["ambiguity"] ++ ["risk"]) ∧
      np.shape a' = [2; 2; 1 + 1] ∧ np.nd_dtype a' = np.float32 ∧
      (∀ r c k, r < 2 → c < 2 → k < 1 →
         np.get3 a' r c k = np.get3 ambiguity_layer r c k) ∧
      (∀ r c, r < 2 → c < 2 → np.get3 a' r c 1 = np.get2 risk_map r c).
Proof.
  apply (disparity_map_grows "risk" risk_map 1 2 store1 (datasets store1 !!! 1) 2
           ambiguity_layer ["ambiguity"] 2 2 1).
  - reflexivity.
  - apply wf_dataset_check; check.
  - split; eexists; (split; [reflexivity|]); split; reflexivity.
  - reflexivity.
  - reflexivity.
  - reflexivity.
  - reflexivity.
Defined.

(** ** Maps and layers the code rejects *)

Lemma assign_init_full old R C K :
  np.shape old = [R; C; K] →
  ∃ a1, np.assign_init (np.full [R; C; K + 1] np.nan np.float32) old = inr a1 ∧
        np.shape a1 = [R; C; K + 1].
Proof.
  intros Hsh. unfold np.assign_init. rewrite full_shape.
  rewrite bool_decide_true by (rewrite Hsh; do 3 f_equal; lia).
  by eexists.
Qed.

Lemma assign_last_unbroadcastable a1 m R C K1 :
  np.shape a1 = [R; C; S K1] → np.broadcast2 (np.shape m) R C = None →
  np.assign_last a1 m = inl ValueError.
Proof. intros Hsh Hb. unfold np.assign_last. by rewrite Hsh, Hb. Qed.

Lemma broadcast2_mismatch R' C' R C :
  (R' ≠ R ∧ R' ≠ 1) ∨ (C' ≠ C ∧ C' ≠ 1) → np.broadcast2 [R'; C'] R C = None.
Proof.
  intros Hne. unfold np.broadcast2.
  replace (np.strip_ones [R'; C']) with [R'; C'] by (by destruct R' as [|[|]]).
  case_bool_decide as HR; [|done].
  case_bool_decide as HC; [|done].
  destruct Hne as [[? ?]|[? ?]]; [destruct HR | destruct HC]; done.
Qed.

(** Line 136 on a map that does not broadcast. *)
Lemma update_cost_volume_unbroadcastable name m x h vars dims l R C K :
  datasets h !!! x = vars →
  vars !! "confidence_measure" = Some (DataVar dims l) →
  np.shape (arrays h !!! l) = [R; C; K] →
  np.broadcast2 (np.shape m) R C = None →
  wp (update_cost_volume name m x) h (λ r h', r = inl ValueError ∧ extends h h').
Proof.
  intros Hv Hcm Hsh Hb. unfold update_cost_volume.
  wp_go. rewrite Hv. unfold xr.in_data_vars. rewrite Hcm.
  wp_go. rewrite Hv, Hcm. wp_step. rewrite Hsh. wp_step.
  rewrite Hv, Hcm. wp_go. unfold xr.data. wp_step.
  pose proof (shape_live _ _ _ _ Hsh) as Hl.
  rewrite (lookup_total_app_live _ _ _ Hl).
  destruct (assign_init_full _ _ _ _ Hsh) as (a1 & Hinit & Hsh1).
  wp_step. rewrite Hinit. wp_step.
  rewrite Nat.add_1_r in Hsh1.
  rewrite (assign_last_unbroadcastable _ _ _ _ _ Hsh1 Hb). wp_step.
  split; [done | solve_extends].
Qed.

Lemma allocate_raises name m disp cv h e h' :
  update_cost_volume name m cv h = (inl e, h') →
  allocate_confidence_map name m disp cv h = (inl e, h').
Proof. intros Hrun. by rewrite allocate_confidence_map_unfold, Hrun. Qed.

(** X13.  When the cost volume has a layer of extents (R, C), a 2-D map
    with an extent that is neither the layer's nor 1 is rejected: the call
    raises [ValueError], and nothing the store held is changed. *)
Theorem unbroadcastable_map_is_rejected name m disp cv h vars dims l a R C K R' C' :
  datasets h !! cv = Some vars →
  vars !! "confidence_measure" = Some (DataVar dims l) →
  arrays h !! l = Some a → np.shape a = [R; C; K] →
  np.shape m = [R'; C'] →
  (R' ≠ R ∧ R' ≠ 1) ∨ (C' ≠ C ∧ C' ≠ 1) →
  ∃ h', allocate_confidence_map name m disp cv h = (inl ValueError, h') ∧
        extends h h'.
Proof.
  intros Hcv Hcm Ha Hsh Hm Hne.
  pose proof (update_cost_volume_unbroadcastable name m cv h vars dims l R C K) as Hwp.
  unfold wp in Hwp.
  destruct (update_cost_volume name m cv h) as [r h'] eqn:Hrun.
  destruct Hwp as [Hr Hext]; try done.
  - by apply list_lookup_total_correct.
  - by rewrite (list_lookup_total_correct _ _ _ Ha).
  - rewrite Hm. by apply broadcast2_mismatch.
  - simpl in Hr. subst r. exists h'. split; [by apply allocate_raises | done].
Qed.

(** A 3 x 2 map against the 2 x 2 layer of the worked example. *)
Lemma unbroadcastable_map_is_rejected_witness :
  ∃ h',
    allocate_confidence_map "risk"
      (np.full [3; 2] (S754_zero false) np.float32) (Some 1) 2 store1
    = (inl ValueError, h') ∧
    extends store1 h'.
Proof.
  apply (unbroadcastable_map_is_rejected "risk" _ (Some 1) 2 store1
           (datasets store1 !!! 2) ["row"; "col"; "indicator"] 2 ambiguity_layer
           2 2 1 3 2).
  - reflexivity.
  - reflexivity.
  - reflexivity.
  - reflexivity.
  - reflexivity.
  - left. lia.
Defined.

(** Line 129 on a layer that is not three-dimensional. *)
Lemma update_cost_volume_flat name m x h vars dims l :
  datasets h !!! x = vars →
  vars !! "confidence_measure" = Some (DataVar dims l) →
  np.ndim (arrays h !!! l) ≠ 3 →
  wp (update_cost_volume name m x) h (λ r h', r = inl ValueError ∧ h' = h).
Proof.
  intros Hv Hcm Hnd. unfold update_cost_volume.
  wp_go. rewrite Hv. unfold xr.in_data_vars. rewrite Hcm.
  wp_go. rewrite Hv, Hcm. wp_step. unfold np.ndim in Hnd.
  destruct (np.shape (arrays h !!! l)) as [|R [|C [|K [|]]]]; wp_step; done.
Qed.

(** X14.  A [confidence_measure] that is not three-dimensional cannot be
    unpacked into (rows, columns, indicators): the call raises [ValueError]
    and leaves the store exactly as it was. *)
Theorem flat_layer_is_rejected name m disp cv h vars dims l a :
  datasets h !! cv = Some vars →
  vars !! "confidence_measure" = Some (DataVar dims l) →
  arrays h !! l = Some a → np.ndim a ≠ 3 →
  allocate_confidence_map name m disp cv h = (inl ValueError, h).
Proof.
  intros Hcv Hcm Ha Hnd.
  pose proof (update_cost_volume_flat name m cv h vars dims l) as Hwp.
  unfold wp in Hwp.
  destruct (update_cost_volume name m cv h) as [r h'] eqn:Hrun.
  destruct Hwp as [Hr Hh]; try done.
  - by apply list_lookup_total_correct.
  - by rewrite (list_lookup_total_correct _ _ _ Ha).
  - simpl in Hr, Hh. subst r h'. by apply allocate_raises.
Qed.

(** A cost volume whose layer has two axes. *)
Lemma flat_layer_is_rejected_witness :
  allocate_confidence_map "risk" risk_map None 0 flat_store = (inl ValueError, flat_store).
Proof.
  apply (flat_layer_is_rejected "risk" risk_map None 0 flat_store
           (datasets flat_store !!! 0) ["row"; "col"] 0
           (np.full [2; 2] (S754_zero false) np.float32)).
  - reflexivity.
  - reflexivity.
  - reflexivity.
  - vm_compute. lia.
Defined.

(** ** The first indicator: the map has to be two-dimensional and to fit *)

Lemma fits_indicator_free h (vars : Dataset) n :
  ¬ xr.has_dim vars "indicator" →
  xr.fits h (delete "indicator" vars) [("indicator", n)].
Proof.
  intros Hno. apply fits_delete, fits_spec.
  intros key v d k k' Hkey Hk Hk'.
  apply list_elem_of_singleton in Hk'. injection Hk' as -> ->.
  destruct Hno. exists key, v. split; [done|]. by eapply sizes_of_dim.
Qed.

(** Lines 146 to 149 on a map that is not two-dimensional. *)
Lemma update_cost_volume_alloc_ndim name m x h vars :
  datasets h !!! x = vars →
  xr.in_data_vars "confidence_measure" vars = false →
  ¬ xr.has_dim vars "indicator" →
  np.ndim m ≠ 2 →
  wp (update_cost_volume name m x) h (λ r h',
    r = inl (if np.ndim m <? 2 then IndexError else ValueError) ∧ extends h h').
Proof.
  intros Hv Hin Hno Hnd. unfold update_cost_volume.
  wp_go. rewrite Hv, Hin. wp_step. rewrite Hv.
  rewrite bool_decide_true by (by apply (fits_indicator_free h vars 1)).
  wp_step. unfold np.newaxis2, np.ndim in *.
  destruct (np.shape m) as [|R [|C [|X rest]]] eqn:Hm; wp_step;
    try (split; [done | solve_extends]); try done.
  unfold np.ndim. cbn [np.astype np.shape length].
  rewrite bool_decide_false by done. wp_step.
  split; [done | solve_extends].
Qed.

(** X15.  Into a cost volume without layer only a two-dimensional map can
    be merged: with a map of fewer than two axes the call raises
    [IndexError], with one of more than two [ValueError]; nothing the store
    held is changed. *)
Theorem first_map_must_be_2d name m disp cv h vars :
  datasets h !! cv = Some vars →
  xr.in_data_vars "confidence_measure" vars = false →
  ¬ xr.has_dim vars "indicator" →
  np.ndim m ≠ 2 →
  ∃ h',
    allocate_confidence_map name m disp cv h
    = (inl (if np.ndim m <? 2 then IndexError else ValueError), h') ∧
    extends h h'.
Proof.
  intros Hcv Hin Hno Hnd.
  pose proof (update_cost_volume_alloc_ndim name m cv h vars) as Hwp.
  unfold wp in Hwp.
  destruct (update_cost_volume name m cv h) as [r h'] eqn:Hrun.
  destruct Hwp as [Hr Hext]; try done.
  - by apply list_lookup_total_correct.
  - simpl in Hr. subst r. exists h'. split; [by apply allocate_raises | done].
Qed.

(** A row of two values, into the cost volume of the worked example. *)
Lemma first_map_must_be_2d_witness :
  ∃ h',
    allocate_confidence_map "ambiguity" row_map (Some 1) 0 store0
    = (inl (if np.ndim row_map <? 2 then IndexError else ValueError), h') ∧
    extends store0 h'.
Proof.
  apply (first_map_must_be_2d "ambiguity" row_map (Some 1) 0 store0 cost_volume_ds).
  - reflexivity.
  - reflexivity.
  - check.
  - vm_compute. lia.
Defined.

(** X16.  With a layer in place the same one-dimensional map is accepted:
    a map of C values is broadcast along the rows, every row of the new
    slice holding the C values (as 32-bit floats). *)
Theorem row_vector_is_broadcast name m cv h vars l a labels R C K :
  datasets h !! cv = Some vars → wf_dataset h vars →
  confidence_layer h cv l a labels →
  np.shape a = [R; C; K] → np.shape m = [C] →
  ∃ cv' h' l' a',
    allocate_confidence_map name m None cv h = (inr (None, cv'), h') ∧
    layer_of h' cv' ["row"; "col"; "indicator"] l' a' ∧
    np.shape a' = [R; C; K + 1] ∧
    ∀ r c, r < R → c < C →
      np.get3 a' r c K = np.cast (np.nd_dtype m) np.float32 (np.data m !!! c).
Proof.
  intros Hcv Hwf [(vars' & Hcv' & Hcm & Ha) (vars'' & Hcv'' & Hind)] Hsh Hm.
  assert (vars' = vars) as -> by congruence.
  assert (vars'' = vars) as -> by congruence.
  assert (Hb : np.broadcast2 (np.shape m) R C = Some (1, C)).
  { rewrite Hm. unfold np.broadcast2.
    replace (np.strip_ones [C]) with [C] by (by destruct C as [|[|]]).
    rewrite bool_decide_true; [done | by left]. }
  destruct (update_cost_volume_grow_ok name m cv h vars l R C K (1, C) labels)
    as (cv' & h' & Hrun); try done.
  { by apply list_lookup_total_correct. }
  { by rewrite (list_lookup_total_correct _ _ _ Ha). }
  destruct (grow_inv _ _ _ _ _ _ _ _ _ _ _ _ _ Hrun Hcv Hcm Ha Hsh)
    as (rc' & labels' & a' & Hb' & _ & [Hlayer _] & Hsha & _ & Hget).
  rewrite Hb in Hb'. injection Hb' as <-.
  exists cv', h', (length (arrays h)), a'.
  split; [by apply allocate_without_disparity_map|].
  split; [done|]. split; [done|].
  intros r c Hr Hc. rewrite Hget by lia. rewrite Nat.ltb_irrefl.
  unfold np.bget. cbn [Nat.eqb]. rewrite Nat.mul_0_l, Nat.add_0_l.
  destruct (C =? 1) eqn:HC; [|done].
  apply Nat.eqb_eq in HC. by replace c with 0 by lia.
Qed.

(** The row [row_map] into the cost volume that holds ["ambiguity"]. *)
Lemma row_vector_is_broadcast_witness :
  ∃ cv' h' l' a',
    allocate_confidence_map "risk" row_map None 2 store1 = (inr (None, cv'), h') ∧
    layer_of h' cv' ["row"; "col"; "indicator"] l' a' ∧
    np.shape a' = [2; 2; 1 + 1] ∧
    ∀ r c, r < 2 → c < 2 →
      np.get3 a' r c 1 = np.cast (np.nd_dtype row_map) np.float32 (np.data row_map !!! c).
Proof.
  apply (row_vector_is_broadcast "risk" row_map 2 store1 (datasets store1 !!! 2) 2
           ambiguity_layer [LStr "ambiguity"] 2 2 1).
  - reflexivity.
  - apply wf_dataset_check; check.
  - split; eexists; (split; [reflexivity|]); split; reflexivity.
  - reflexivity.
  - reflexivity.
Defined.

Lemma arrays_snoc_preserved (h : heap) a' l a :
  arrays h !! l = Some a → (arrays h ++ [a']) !! l = Some a.
Proof. apply lookup_app_l_Some. Qed.

(** Lines 146 to 149 on a map that does not have the extents of the cost
    volume. *)
Lemma update_cost_volume_alloc_mismatch name m x h vars key v d n R' C' :
  datasets h !!! x = vars → live h vars →
  xr.in_data_vars "confidence_measure" vars = false →
  vars !! key = Some v → key ≠ "confidence_measure" → key ≠ "indicator" →
  (d, n) ∈ xr.sizes_of h v →
  np.shape m = [R'; C'] →
  (d = "row" ∧ n ≠ R') ∨ (d = "col" ∧ n ≠ C') →
  wp (update_cost_volume name m x) h (λ r h', r = inl ValueError ∧ extends h h').
Proof.
  intros Hv Hlive Hin Hkey Hk1 Hk2 Hn Hm Hne. unfold update_cost_volume.
  wp_go. rewrite Hv, Hin. wp_step. rewrite Hv.
  case_bool_decide as Hfit; wp_step; [|split; [done | solve_extends]].
  unfold np.newaxis2. rewrite Hm. wp_step.
  unfold np.ndim. cbn [np.astype np.shape length].
  rewrite bool_decide_true by done. wp_step.
  rewrite bool_decide_false; [wp_step; split; [done | solve_extends]|].
  intros Hfit2.
  apply setitem_check with (R := R') (C := C') (K := 1) in Hfit2;
    [|cbn [arrays]; by rewrite lookup_total_snoc].
  rewrite fits_spec in Hfit2.
  assert (Hn' : (d, n) ∈ xr.sizes_of
            (Heap (arrays h ++ [np.astype (np.NdArray (np.nd_dtype m) [R'; C'; 1] (np.data m))
                                  np.float32])
                  (datasets h ++ [<["indicator" := Coordinate "indicator" [LStr name]]> vars]))
            v).
  { rewrite (sizes_of_preserved h _ vars key v); try done.
    intros l a. apply arrays_snoc_preserved. }
  assert (Hlook : delete "confidence_measure"
            (<["indicator" := Coordinate "indicator" [LStr name]]> vars) !! key = Some v).
  { by rewrite lookup_delete_ne, lookup_insert_ne. }
  destruct Hne as [[-> Hne]|[-> Hne]].
  - apply Hne. symmetry. eapply (Hfit2 key v "row" n R'); [done..|].
    apply elem_of_layer_sizes. auto.
  - apply Hne. symmetry. eapply (Hfit2 key v "col" n C'); [done..|].
    apply elem_of_layer_sizes. auto.
Qed.

(** X17.  Into a cost volume without layer a map is merged with its own
    extents, so they have to be those of the cost volume: when a variable
    of the cost volume has another number of rows or of columns than the
    map, the call raises [ValueError], and nothing the store held is
    changed. *)
Theorem first_map_must_fit name m disp cv h vars key v d n R' C' :
  datasets h !! cv = Some vars → live h vars →
  xr.in_data_vars "confidence_measure" vars = false →
  vars !! key = Some v → key ≠ "confidence_measure" → key ≠ "indicator" →
  (d, n) ∈ xr.sizes_of h v →
  np.shape m = [R'; C'] →
  (d = "row" ∧ n ≠ R') ∨ (d = "col" ∧ n ≠ C') →
  ∃ h', allocate_confidence_map name m disp cv h = (inl ValueError, h') ∧
        extends h h'.
Proof.
  intros Hcv Hlive Hin Hkey Hk1 Hk2 Hn Hm Hne.
  pose proof (update_cost_volume_alloc_mismatch name m cv h vars key v d n R' C') as Hwp.
  unfold wp in Hwp.
  destruct (update_cost_volume name m cv h) as [r h'] eqn:Hrun.
  destruct Hwp as [Hr Hext]; try done.
  - by apply list_lookup_total_correct.
  - simpl in Hr. subst r. exists h'. split; [by apply allocate_raises | done].
Qed.

(** A 1 x 1 map against the 2 x 2 cost volume of the worked example: the
    first indicator is not broadcast. *)
Lemma first_map_must_fit_witness :
  ∃ h',
    allocate_confidence_map "ambiguity" half_map (Some 1) 0 store0 = (inl ValueError, h') ∧
    extends store0 h'.
Proof.
  apply (first_map_must_fit "ambiguity" half_map (Some 1) 0 store0 cost_volume_ds
           "row" (Coordinate "row" [LInt 0; LInt 1]) "row" 2 1 1).
  - reflexivity.
  - apply live_check; check.
  - reflexivity.
  - reflexivity.
  - done.
  - done.
  - apply list_elem_of_singleton. reflexivity.
  - reflexivity.
  - left. split; [reflexivity | lia].
Defined.

(** ** A disparity map of other extents *)

Lemma reindexers_error target source dims e :
  xr.reindexers target source dims = inl e → e = ValueError.
Proof.
  induction dims as [|d dims IH]; simpl; [done|].
  destruct (xr.reindexer target source d) as [e'|ix] eqn:Hd.
  - intros [= <-]. unfold xr.reindexer in Hd.
    destruct (xr.index_of target d), (xr.index_of source d); try done.
    repeat case_decide; congruence.
  - destruct (xr.reindexers target source dims) as [e'|key]; [|done].
    intros [= <-]. by apply IH.
Qed.

(** The extents of a layer over (row, col, indicator) once aligned. *)
Lemma aligned_sizes_layer h target source L a R C K ixs :
  arrays h !! L = Some a → np.shape a = [R; C; K] →
  xr.reindexers target source ["row"; "col"; "indicator"] = inr ixs →
  ∃ i1 i2 i3,
    xr.reindexer target source "row" = inr i1 ∧
    xr.reindexer target source "col" = inr i2 ∧
    xr.reindexer target source "indicator" = inr i3 ∧
    xr.aligned_sizes h (DataVar ["row"; "col"; "indicator"] L) ixs
    = [("row", np.new_extent R i1); ("col", np.new_extent C i2);
       ("indicator", np.new_extent K i3)].
Proof.
  intros Ha Hsh. simpl.
  destruct (xr.reindexer target source "row") as [?|i1]; [done|].
  destruct (xr.reindexer target source "col") as [?|i2]; [done|].
  destruct (xr.reindexer target source "indicator") as [?|i3]; [done|].
  intros [= <-]. exists i1, i2, i3. do 3 (split; [done|]).
  unfold xr.aligned_sizes, xr.shape_of.
  by rewrite (list_lookup_total_correct _ _ _ Ha), Hsh.
Qed.

(** Line 170 on a dataset the layer does not fit, however it is aligned. *)
Lemma update_disparity_map_alias_reject name m d cv h vars_d vars_cv v :
  datasets h !!! d = vars_d →
  xr.in_data_vars "confidence_measure" vars_d = false →
  datasets h !!! cv = vars_cv →
  vars_cv !! "confidence_measure" = Some v →
  (∀ ixs,
     xr.reindexers vars_d (layer_coords vars_cv v) (xr.dims_of v) = inr ixs →
     ¬ xr.fits h (delete "confidence_measure" (vars_d ∪ layer_coords vars_cv v))
               (xr.aligned_sizes h v ixs)) →
  wp (update_disparity_map name m (Some d) cv) h (λ r h', r = inl ValueError ∧ h' = h).
Proof.
  intros Hd Hin Hcv Hcm Hfit. unfold update_disparity_map.
  wp_go. rewrite Hd, Hin. wp_go. rewrite Hcv, Hcm. wp_step.
  fold (layer_coords vars_cv v). unfold xr.setitem. wp_go. rewrite Hd.
  destruct (xr.reindexers _ _ _) as [e|ixs] eqn:Hix; wp_step.
  { apply reindexers_error in Hix as ->. split; [done | by destruct h]. }
  rewrite bool_decide_false by (by apply Hfit). wp_step.
  split; [done | by destruct h].
Qed.

(** X18.  When the disparity map has no layer and one of its variables has
    another number of rows or of columns than the layer built for the cost
    volume, along a dimension for which the disparity map has no
    coordinate, the assignment of line 170 raises [ValueError]: the store
    is left as the call without disparity map leaves it, the disparity map
    untouched.  (With a coordinate along the dimension the layer is
    reindexed on the labels of the disparity map instead.) *)
Theorem mismatched_disparity_map_is_rejected
    name m d cv h vars_d key v dim n cv1 h1 l a R C K :
  allocate_confidence_map name m None cv h = (inr (None, cv1), h1) →
  layer_of h1 cv1 ["row"; "col"; "indicator"] l a → np.shape a = [R; C; K] →
  datasets h !! d = Some vars_d → live h vars_d →
  xr.in_data_vars "confidence_measure" vars_d = false →
  vars_d !! key = Some v → key ≠ "confidence_measure" →
  (dim, n) ∈ xr.sizes_of h v → vars_d !! dim = None →
  (dim = "row" ∧ n ≠ R) ∨ (dim = "col" ∧ n ≠ C) →
  allocate_confidence_map name m (Some d) cv h = (inl ValueError, h1) ∧
  datasets h1 !! d = Some vars_d.
Proof.
  intros Hrun (vars_cv & Hcv1 & Hcm & Ha) Hsh Hd Hlive Hin Hkey Hk Hn Hnodim Hne.
  rewrite allocate_confidence_map_unfold in Hrun |- *.
  destruct (update_cost_volume name m cv h) as [[e|cv1'] h1'] eqn:Hrun1; [done|].
  rewrite update_disparity_map_none in Hrun. unfold map_result in Hrun.
  simpl in Hrun. injection Hrun as -> ->.
  destruct (update_cost_volume_post _ _ _ _ _ _ Hrun1) as [[Harr1 Hds1] _].
  pose proof (Hds1 _ _ Hd) as Hd1.
  pose proof (update_disparity_map_alias_reject name m d cv1 h1 vars_d vars_cv
                (DataVar ["row"; "col"; "indicator"] l)) as Hwp.
  unfold wp in Hwp.
  destruct (update_disparity_map name m (Some d) cv1 h1) as [r h'] eqn:Hrun2.
  destruct Hwp as [Hr Hh]; try done.
  - by apply list_lookup_total_correct.
  - by apply list_lookup_total_correct.
  - intros ixs Hix Hfit. rewrite fits_spec in Hfit.
    destruct (aligned_sizes_layer h1 _ _ l a R C K ixs Ha Hsh Hix)
      as (i1 & i2 & i3 & Hi1 & Hi2 & _ & Hsizes).
    rewrite Hsizes in Hfit.
    assert (Hnone : xr.index_of vars_d dim = None)
      by (unfold xr.index_of; by rewrite Hnodim).
    assert (Hn1 : (dim, n) ∈ xr.sizes_of h1 v)
      by (by rewrite (sizes_of_preserved h h1 vars_d key v)).
    assert (Hlook : delete "confidence_measure"
              (vars_d ∪ layer_coords vars_cv (DataVar ["row"; "col"; "indicator"] l))
              !! key = Some v).
    { rewrite lookup_delete_ne by done. by apply lookup_union_Some_l. }
    destruct Hne as [[-> Hne]|[-> Hne]].
    + rewrite reindexer_no_index in Hi1 by (by left). injection Hi1 as <-.
      apply Hne. symmetry. eapply (Hfit key v "row" n R); [done..|].
      apply elem_of_layer_sizes. auto.
    + rewrite reindexer_no_index in Hi2 by (by left). injection Hi2 as <-.
      apply Hne. symmetry. eapply (Hfit key v "col" n C); [done..|].
      apply elem_of_layer_sizes. auto.
  - simpl in Hr, Hh. subst r h'. done.
Qed.

(** A disparity map of three rows, without coordinates, against the two
    rows of the cost volume. *)
Lemma mismatched_disparity_map_is_rejected_witness :
  allocate_confidence_map "ambiguity" ambiguity_map (Some 1) 0 tall_store
  = (inl ValueError,
     (allocate_confidence_map "ambiguity" ambiguity_map None 0 tall_store).2) ∧
  datasets (allocate_confidence_map "ambiguity" ambiguity_map None 0 tall_store).2 !! 1
  = Some {[ "disparity_map" := DataVar ["row"; "col"] 1 ]}.
Proof.
  apply (mismatched_disparity_map_is_rejected "ambiguity" ambiguity_map 1 0 tall_store
           {[ "disparity_map" := DataVar ["row"; "col"] 1 ]}
           "disparity_map" (DataVar ["row"; "col"] 1) "row" 3 2 _ 2 ambiguity_layer 2 2 1).
  - vm_compute. reflexivity.
  - eexists. split; [reflexivity|]. split; reflexivity.
  - reflexivity.
  - reflexivity.
  - apply live_check; check.
  - reflexivity.
  - reflexivity.
  - done.
  - apply elem_of_cons. left. reflexivity.
  - reflexivity.
  - left. split; [reflexivity | lia].
Defined.
